(** * Giftunity: the backend's user endpoint, its translation endpoint, and the
      bot's fallback path

    A shallow embedding of

    - [Giftunity-backend/src/server.js]: the handlers of
      [POST /api/user/findOrCreate] and [GET /api/translations/:lang];
    - [Giftunity-backend/src/config/db.js]: the [query] wrapper;
    - [Giftunity-bot/src/bot.js]: [BackendAPI], [handleBotError] and the
      [/start] handler.

    JSON values are an inductive type, the [users] table is a list of rows
    guarded by its primary key, [db.query] is a command of a small
    state-and-exception monad, and concurrent requests are interleavings of
    the two queries each request issues.

    The engine is followed as far as the statements of the handlers go: the
    key, the [NOT NULL] of [first_name], the defaults, [RETURNING *].  Its
    coercion of a parameter that is not of the column's type, and its
    refusal of one that does not fit, are not: the properties that say
    what is stored or returned are stated for the payloads the table takes
    as they are, and those that hold whatever the payload say so. *)

From Stdlib Require Import ZArith List String Ascii Bool Lia.
Import ListNotations.

Set Warnings "-register-all".

Local Open Scope string_scope.
Local Open Scope list_scope.
Local Open Scope Z_scope.

(* ------------------------------------------------------------------ *)
(** ** JavaScript values *)

Module JS.

(** JSON data as the handlers see it, plus [undefined].  Numbers are the
    integers (Telegram ids and timestamps are); a JavaScript number holds
    an integer exactly up to [MAX_SAFE_INTEGER] in size. *)
Inductive jsval : Type :=
| JUndefined
| JNull
| JBool (b : bool)
| JNum (z : Z)
| JStr (s : string)
| JArr (items : list jsval)
| JObj (fields : list (string * jsval)).

(** [!!v] *)
Definition truthy (v : jsval) : bool :=
  match v with
  | JUndefined | JNull => false
  | JBool b => b
  | JNum z => negb (z =? 0)
  | JStr s => negb (s =? "")%string
  | JArr _ | JObj _ => true
  end.

(** [a || b] *)
Definition or_else (a b : jsval) : jsval := if truthy a then a else b.

Fixpoint lookup (k : string) (fields : list (string * jsval)) : jsval :=
  match fields with
  | [] => JUndefined
  | (k', v) :: rest => if (k =? k')%string then v else lookup k rest
  end.

(** [o.k] where [o] is known not to be [null] or [undefined]; this is also
    what the destructuring [const { k } = o] binds. *)
Definition prop (o : jsval) (k : string) : jsval :=
  match o with
  | JObj fields => lookup k fields
  | _ => JUndefined
  end.

(** [o.k] in general: reading a property of [null] or [undefined] throws a
    [TypeError]. *)
Definition member (o : jsval) (k : string) : option jsval :=
  match o with
  | JUndefined | JNull => None
  | _ => Some (prop o k)
  end.

(** A key whose value is [undefined] is dropped when an object literal is
    serialised by [res.json]. *)
Fixpoint stringify_fields (fields : list (string * jsval))
  : list (string * jsval) :=
  match fields with
  | [] => []
  | (k, JUndefined) :: rest => stringify_fields rest
  | kv :: rest => kv :: stringify_fields rest
  end.

Definition has_key (k : string) (o : jsval) : bool :=
  match o with
  | JObj fields => existsb (fun kv => (fst kv =? k)%string) fields
  | _ => false
  end.

(** [Number.MAX_SAFE_INTEGER] *)
Definition MAX_SAFE_INTEGER : Z := 2 ^ 53 - 1.

(** [Number.isSafeInteger(z)] *)
Definition isSafeInteger (z : Z) : bool :=
  (- MAX_SAFE_INTEGER <=? z) && (z <=? MAX_SAFE_INTEGER).

End JS.
Import JS.

(* ------------------------------------------------------------------ *)
(** ** Code that threads a state and may throw *)

Module Eff.

(** An [async] body over a state [S] that either returns an [A] or throws
    an [E]; what it did to the state before throwing stays done. *)
Definition comp (S E A : Type) : Type := S -> (E + A) * S.

Definition ret {S E A} (a : A) : comp S E A := fun s => (inr a, s).

Definition throw {S E A} (e : E) : comp S E A := fun s => (inl e, s).

Definition bindM {S E A B} (m : comp S E A) (k : A -> comp S E B)
  : comp S E B :=
  fun s =>
    match m s with
    | (inl e, s') => (inl e, s')
    | (inr a, s') => k a s'
    end.

(** [try { m } catch (e) { handler e }] where the handler is itself code. *)
Definition catch {S E A} (m : comp S E A) (handler : E -> comp S E A)
  : comp S E A :=
  fun s =>
    match m s with
    | (inl e, s') => handler e s'
    | (inr a, s') => (inr a, s')
    end.

(** [try { m } catch (e) { handler e }] where the handler cannot throw. *)
Definition try_catch {S E A} (m : comp S E A) (handler : E -> A)
  : S -> A * S :=
  fun s =>
    match m s with
    | (inl e, s') => (handler e, s')
    | (inr a, s') => (a, s')
    end.

End Eff.
Import Eff.

Notation "x <- m ;; k" := (bindM m (fun x => k))
  (at level 61, m at next level, right associativity).

(* ------------------------------------------------------------------ *)
(** ** The [users] table and [db.query] *)

Module Pg.

(** What the handler's [catch] looks at in the error it is given:
    [error.code] (a SQLSTATE or a socket error name when [pool.query]
    rejected, [undefined] for a plain JavaScript error) and
    [error.message]. *)
Record pg_error : Type := mk_error {
  code : option string;
  message : string
}.

(** One row of [users], columns in the order of [CREATE TABLE].  The ten
    platform columns hold the parameter as the driver bound it, which is
    what the engine stores when the parameter is of the column's type and
    within its length ([typed] below); [preferred_language] is a text or
    [NULL].  What the engine makes of any other parameter (it reads "yes"
    into a boolean column and 77 into a text one, and refuses a text
    longer than the column) is not followed here: such refusals are among
    the faults of [query], and what is said of stored values is said of
    [typed] parameters. *)
Record row : Type := mk_row {
  id : Z;
  username : jsval;
  first_name : jsval;
  last_name : jsval;
  language_code : jsval;
  is_premium : jsval;
  is_bot : jsval;
  added_to_attachment_menu : jsval;
  can_join_groups : jsval;
  can_read_all_group_messages : jsval;
  supports_inline_queries : jsval;
  preferred_language : option string;
  created_at : Z;
  updated_at : Z
}.

Definition table : Type := list row.

(** The eleven values of the parameter array, in the order both
    statements list them: [$1] .. [$11]. *)
Record params : Type := mk_params {
  p_id : jsval;
  p_is_bot : jsval;
  p_first_name : jsval;
  p_last_name : jsval;
  p_username : jsval;
  p_language_code : jsval;
  p_is_premium : jsval;
  p_added_to_attachment_menu : jsval;
  p_can_join_groups : jsval;
  p_can_read_all_group_messages : jsval;
  p_supports_inline_queries : jsval
}.

(** The three statements of the endpoint. *)
Inductive statement : Type :=
| SelectById (id : jsval)
| UpdateUser (p : params)
| InsertUser (p : params).

(** The driver sends [undefined] as [NULL]. *)
Definition bind (v : jsval) : jsval :=
  match v with
  | JUndefined => JNull
  | _ => v
  end.

Definition is_null (v : jsval) : bool :=
  match v with
  | JNull => true
  | _ => false
  end.

(** The types [CREATE TABLE users] gives the platform columns. *)
Inductive column_type : Type :=
| VARCHAR (n : nat)
| BOOLEAN.

(** A byte that continues a character of a text held as UTF-8. *)
Definition continuation (c : ascii) : bool :=
  Nat.leb 128 (nat_of_ascii c) && Nat.ltb (nat_of_ascii c) 192.

(** The characters of a text, which is what [VARCHAR(n)] counts. *)
Fixpoint characters (s : string) : nat :=
  match s with
  | EmptyString => O
  | String c rest =>
      if continuation c then characters rest else S (characters rest)
  end.

(** The engine takes no text with a zero byte. *)
Fixpoint has_nul (s : string) : bool :=
  match s with
  | EmptyString => false
  | String c rest => Ascii.eqb c Ascii.zero || has_nul rest
  end.

(** A parameter the column stores as it is: [NULL], a text of at most
    [n] characters for [VARCHAR(n)], a boolean for [BOOLEAN]. *)
Definition takes (ty : column_type) (v : jsval) : bool :=
  match ty, bind v with
  | _, JNull => true
  | VARCHAR n, JStr s => Nat.leb (characters s) n && negb (has_nul s)
  | BOOLEAN, JBool _ => true
  | _, _ => false
  end.

Definition BIGINT_MIN : Z := - 2 ^ 63.
Definition BIGINT_MAX : Z := 2 ^ 63 - 1.

Definition invalid_text_representation : pg_error :=
  mk_error (Some "22P02") "invalid input syntax for type bigint".
Definition numeric_value_out_of_range : pg_error :=
  mk_error (Some "22003") "value is out of range for type bigint".
Definition not_null_violation : pg_error :=
  mk_error (Some "23502")
    "null value in column first_name violates not-null constraint".
Definition unique_violation : pg_error :=
  mk_error (Some "23505")
    "duplicate key value violates unique constraint users_pkey".

(** [$1] against the [BIGINT] key.  A number in range is the key, which
    is exact up to [MAX_SAFE_INTEGER]: beyond it the handler holds a
    double and the driver sends the digits of its [toString], another
    integer, and that is not followed here.  Every other value is taken
    as refused by the engine; a string the engine would read as a number
    is not followed either. *)
Definition bind_id (v : jsval) : pg_error + option Z :=
  match bind v with
  | JNull => inr None
  | JNum z =>
      if (BIGINT_MIN <=? z) && (z <=? BIGINT_MAX) then inr (Some z)
      else inl numeric_value_out_of_range
  | _ => inl invalid_text_representation
  end.

Definition has_id (k : Z) (r : row) : bool := id r =? k.

(** The parameters [$2] .. [$11] are each of the type of their column,
    as [CREATE TABLE users] in [server.js] declares them. *)
Definition typed (p : params) : bool :=
  takes BOOLEAN (p_is_bot p) &&
  takes (VARCHAR 255) (p_first_name p) &&
  takes (VARCHAR 255) (p_last_name p) &&
  takes (VARCHAR 255) (p_username p) &&
  takes (VARCHAR 10) (p_language_code p) &&
  takes BOOLEAN (p_is_premium p) &&
  takes BOOLEAN (p_added_to_attachment_menu p) &&
  takes BOOLEAN (p_can_join_groups p) &&
  takes BOOLEAN (p_can_read_all_group_messages p) &&
  takes BOOLEAN (p_supports_inline_queries p).

(** [SET is_bot = $2, ..., supports_inline_queries = $11,
    updated_at = NOW()]: [id], [preferred_language] and [created_at] are
    not assigned. *)
Definition set_columns (p : params) (now : Z) (r : row) : row :=
  {| id := id r;
     username := bind (p_username p);
     first_name := bind (p_first_name p);
     last_name := bind (p_last_name p);
     language_code := bind (p_language_code p);
     is_premium := bind (p_is_premium p);
     is_bot := bind (p_is_bot p);
     added_to_attachment_menu := bind (p_added_to_attachment_menu p);
     can_join_groups := bind (p_can_join_groups p);
     can_read_all_group_messages := bind (p_can_read_all_group_messages p);
     supports_inline_queries := bind (p_supports_inline_queries p);
     preferred_language := preferred_language r;
     created_at := created_at r;
     updated_at := now |}.

(** [INSERT INTO users (id, is_bot, ..., supports_inline_queries)]: the
    three columns left out take their defaults, ['en'] and
    [CURRENT_TIMESTAMP] twice. *)
Definition new_row (k : Z) (p : params) (now : Z) : row :=
  {| id := k;
     username := bind (p_username p);
     first_name := bind (p_first_name p);
     last_name := bind (p_last_name p);
     language_code := bind (p_language_code p);
     is_premium := bind (p_is_premium p);
     is_bot := bind (p_is_bot p);
     added_to_attachment_menu := bind (p_added_to_attachment_menu p);
     can_join_groups := bind (p_can_join_groups p);
     can_read_all_group_messages := bind (p_can_read_all_group_messages p);
     supports_inline_queries := bind (p_supports_inline_queries p);
     preferred_language := Some "en";
     created_at := now;
     updated_at := now |}.

Definition update_where (k : Z) (p : params) (now : Z) (t : table) : table :=
  map (fun r => if has_id k r then set_columns p now r else r) t.

(** What the engine does with a statement at time [now]: the rows it
    returns ([RETURNING *] for the two writes) and the table afterwards. *)
Definition execute (s : statement) (now : Z) (t : table)
  : (pg_error + list row) * table :=
  match s with
  | SelectById v =>
      match bind_id v with
      | inl e => (inl e, t)
      | inr None => (inr [], t)
      | inr (Some k) => (inr (filter (has_id k) t), t)
      end
  | UpdateUser p =>
      match bind_id (p_id p) with
      | inl e => (inl e, t)
      | inr None => (inr [], t)
      | inr (Some k) =>
          if is_null (bind (p_first_name p)) && existsb (has_id k) t
          then (inl not_null_violation, t)
          else let t' := update_where k p now t in
               (inr (filter (has_id k) t'), t')
      end
  | InsertUser p =>
      match bind_id (p_id p) with
      | inl e => (inl e, t)
      | inr None => (inl not_null_violation, t)
      | inr (Some k) =>
          if is_null (bind (p_first_name p)) then (inl not_null_violation, t)
          else if existsb (has_id k) t then (inl unique_violation, t)
          else let r := new_row k p now in (inr [r], t ++ [r])
      end
  end.

(** The world a request runs in: the table, the queries issued so far
    (latest first), and the faults the environment has in store, one
    entry per coming query: [Some e] makes that query throw [e] before it
    reaches the table (connection refused, relation missing, a value the
    deployed schema refuses, ...). *)
Record world : Type := mk_world {
  users : table;
  issued : list statement;
  faults : list (option pg_error)
}.

(** Handler code over the world: it may throw a [pg_error]. *)
Definition M (A : Type) : Type := comp world pg_error A.

(** [const query = async (text, params) => { try { return await
    pool.query(text, params) } catch (error) { throw error } }] *)
Definition query (s : statement) (now : Z) : M (list row) :=
  fun w =>
    let log := s :: issued w in
    match faults w with
    | Some e :: rest => (inl e, mk_world (users w) log rest)
    | upcoming =>
        let '(res, t') := execute s now (users w) in
        (res, mk_world t' log (tl upcoming))
    end.

End Pg.
Import Pg.

(* ------------------------------------------------------------------ *)
(** ** The backend's handlers ([server.js]) *)

Module Backend.

(** What a handler sends: the status and the JSON body. *)
Record response : Type := mk_response {
  status : Z;
  body : jsval
}.

(** [res.status(s).json(b)]: the body as [JSON.stringify] leaves it. *)
Definition json (s : Z) (b : jsval) : response :=
  match b with
  | JObj fields => mk_response s (JObj (stringify_fields fields))
  | _ => mk_response s b
  end.

Definition nullable (v : option string) : jsval :=
  match v with
  | Some s => JStr s
  | None => JNull
  end.

(** A row as [RETURNING *] hands it to [res.json]: one key per column.  The
    key and the two instants appear as numbers, whatever rendering the
    driver gives them. *)
Definition row_json (r : row) : jsval :=
  JObj [ ("id", JNum (id r));
         ("username", username r);
         ("first_name", first_name r);
         ("last_name", last_name r);
         ("language_code", language_code r);
         ("is_premium", is_premium r);
         ("is_bot", is_bot r);
         ("added_to_attachment_menu", added_to_attachment_menu r);
         ("can_join_groups", can_join_groups r);
         ("can_read_all_group_messages", can_read_all_group_messages r);
         ("supports_inline_queries", supports_inline_queries r);
         ("preferred_language", nullable (preferred_language r));
         ("created_at", JNum (created_at r));
         ("updated_at", JNum (updated_at r)) ].

(** [result.rows[0]] *)
Definition rows0 (rows : list row) : jsval :=
  match rows with
  | r :: _ => row_json r
  | [] => JUndefined
  end.

Definition TypeError (msg : string) : pg_error := mk_error None msg.

(** [const { id, is_bot, first_name, ... } = req.body] *)
Definition params_of (body : jsval) : params :=
  {| p_id := prop body "id";
     p_is_bot := prop body "is_bot";
     p_first_name := prop body "first_name";
     p_last_name := prop body "last_name";
     p_username := prop body "username";
     p_language_code := prop body "language_code";
     p_is_premium := prop body "is_premium";
     p_added_to_attachment_menu := prop body "added_to_attachment_menu";
     p_can_join_groups := prop body "can_join_groups";
     p_can_read_all_group_messages := prop body "can_read_all_group_messages";
     p_supports_inline_queries := prop body "supports_inline_queries" |}.

Definition destructure (body : jsval) : M params :=
  match body with
  | JUndefined | JNull =>
      throw (TypeError "Cannot destructure property 'id' of 'req.body'")
  | _ => ret (params_of body)
  end.

(** [!id || !first_name] *)
Definition missing_required (p : params) : bool :=
  negb (truthy (p_id p)) || negb (truthy (p_first_name p)).

Definition bad_request : response :=
  json 400
    (JObj [("error",
            JStr "Missing required fields: id and first_name are required")]).

(** The handler from its second [await] on: the branch on
    [existingUser.rows.length > 0]. *)
Definition after_select (now : Z) (p : params) (existingUser : list row)
  : M response :=
  if (0 <? Z.of_nat (List.length existingUser)) then
    updatedUser <- query (UpdateUser p) now ;;
    ret (json 200 (rows0 updatedUser))
  else
    newUser <- query (InsertUser p) now ;;
    ret (json 201 (rows0 newUser)).

(** The [try] block of the handler. *)
Definition findOrCreate_try (now : Z) (body : jsval) : M response :=
  p <- destructure body ;;
  if missing_required p then ret bad_request
  else
    existingUser <- query (SelectById (p_id p)) now ;;
    after_select now p existingUser.

(** [process.env.NODE_ENV === 'development'] *)
Definition is_development (NODE_ENV : option string) : bool :=
  match NODE_ENV with
  | Some mode => (mode =? "development")%string
  | None => false
  end.

(** [process.env.NODE_ENV === 'development' ? error.message : undefined] *)
Definition details (NODE_ENV : option string) (error : pg_error) : jsval :=
  if is_development NODE_ENV then JStr (message error) else JUndefined.

Definition code_is (error : pg_error) (c : string) : bool :=
  match code error with
  | Some c' => (c' =? c)%string
  | None => false
  end.

(** The [catch] block of the handler. *)
Definition findOrCreate_catch (NODE_ENV : option string) (error : pg_error)
  : response :=
  if code_is error "ECONNREFUSED" || code_is error "ENOTFOUND" then
    json 503
      (JObj [("error", JStr "Database connection failed");
             ("message", JStr "Unable to connect to the database");
             ("details", details NODE_ENV error)])
  else if code_is error "42P01" then
    json 503
      (JObj [("error", JStr "Database table not found");
             ("message",
              JStr "The users table does not exist. Please check database initialization.");
             ("details", details NODE_ENV error)])
  else
    json 500
      (JObj [("error", JStr "Internal server error");
             ("message", JStr "Failed to process user data");
             ("details", details NODE_ENV error)]).

(** [app.post('/api/user/findOrCreate', async (req, res) => ...)]: the
    response sent and the world left behind.  [now] is the engine's clock
    when the request's statements run. *)
Definition findOrCreate (NODE_ENV : option string) (now : Z) (body : jsval)
  : world -> response * world :=
  try_catch (findOrCreate_try now body) (findOrCreate_catch NODE_ENV).

(** *** Translations *)

Definition supportedLanguages : list string :=
  ["en"; "ar"; "fa"; "ru"; "de"; "zh"].

Definition includes (l : list string) (s : string) : bool :=
  existsb (String.eqb s) l.

Definition is_lower (c : ascii) : bool :=
  (("a" <=? c) && (c <=? "z"))%char.

(** [/^[a-z]{2}$/.test(lang)] *)
Definition two_lowercase (lang : string) : bool :=
  match lang with
  | String a (String b EmptyString) => is_lower a && is_lower b
  | _ => false
  end.

(** What [fs.readFile(path, 'utf8', cb)] passes as [data], with the text
    abstracted to what [JSON.parse] makes of it: the value it denotes, or
    nothing when it is not JSON. *)
Inductive file_text : Type :=
| Denotes (v : jsval)
| Unparsable (raw : string).

(** The files under the service, by path; [None] is the [err] of the
    callback (no such file, no permission). *)
Definition filesystem : Type := string -> option file_text.

Definition JSON_parse (data : file_text) : option jsval :=
  match data with
  | Denotes v => Some v
  | Unparsable _ => None
  end.

(** [path.join(__dirname, '..', '..', '..', 'locales', `${lang}.json`)],
    relative to [__dirname]. *)
Definition filePath (lang : string) : string :=
  ("../../../locales/" ++ lang ++ ".json")%string.

(** [app.get('/api/translations/:lang', (req, res) => ...)] with the files
    as they are when the request is served. *)
Definition getTranslations (fs : filesystem) (lang : string) : response :=
  if negb (truthy (JStr lang)) || negb (two_lowercase lang) then
    json 400
      (JObj [("error", JStr "Invalid language code");
             ("message", JStr "Language code must be a 2-letter ISO code")])
  else if negb (includes supportedLanguages lang) then
    json 404
      (JObj [("error", JStr "Language not supported");
             ("supportedLanguages", JArr (map JStr supportedLanguages))])
  else
    match fs (filePath lang) with
    | None =>
        json 500
          (JObj [("error", JStr "Translation service error");
                 ("message", JStr "Failed to load translation file")])
    | Some data =>
        match JSON_parse data with
        | Some translations => json 200 translations
        | None =>
            json 500
              (JObj [("error", JStr "Translation service error");
                     ("message", JStr "Invalid translation file format")])
        end
    end.

(** [app.get('/api/translations', ...)] *)
Definition listTranslations : response :=
  json 200
    (JObj [("supportedLanguages", JArr (map JStr supportedLanguages));
           ("defaultLanguage", JStr "en")]).

End Backend.
Import Backend.

(* ------------------------------------------------------------------ *)
(** ** Requests in flight at once *)

Module Concurrent.

(** A request to [/api/user/findOrCreate] is suspended at each of its two
    [await db.query(...)]; between them other requests run. *)
Inductive request : Type :=
| Received (body : jsval)
| Awaiting (p : params) (existingUser : list row)
| Responded (r : response).

(** The handler up to and including its first query. *)
Definition until_select (now : Z) (body : jsval) : M request :=
  p <- destructure body ;;
  if missing_required p then ret (Responded bad_request)
  else
    existingUser <- query (SelectById (p_id p)) now ;;
    ret (Awaiting p existingUser).

(** One turn of a request: it runs to its next query, performs it at the
    engine's time [now], and is suspended again or has responded. *)
Definition advance (NODE_ENV : option string) (now : Z) (r : request)
  : world -> request * world :=
  match r with
  | Received body =>
      try_catch (until_select now body)
                (fun e => Responded (findOrCreate_catch NODE_ENV e))
  | Awaiting p existingUser =>
      try_catch (res <- after_select now p existingUser ;; ret (Responded res))
                (fun e => Responded (findOrCreate_catch NODE_ENV e))
  | Responded res => fun w => (Responded res, w)
  end.

(** The [i]-th request in flight takes a turn. *)
Fixpoint turn (NODE_ENV : option string) (now : Z) (i : nat)
  (rs : list request) (w : world) {struct rs} : list request * world :=
  match rs, i with
  | [], _ => ([], w)
  | r :: rest, O =>
      let '(r', w') := advance NODE_ENV now r w in (r' :: rest, w')
  | r :: rest, S j =>
      let '(rest', w') := turn NODE_ENV now j rest w in (r :: rest', w')
  end.

(** A schedule names, turn by turn, the request that runs and the time. *)
Fixpoint run (NODE_ENV : option string) (schedule : list (nat * Z))
  (rs : list request) (w : world) : list request * world :=
  match schedule with
  | [] => (rs, w)
  | (i, now) :: later =>
      let '(rs', w') := turn NODE_ENV now i rs w in
      run NODE_ENV later rs' w'
  end.

Definition responded (r : request) : bool :=
  match r with
  | Responded _ => true
  | _ => false
  end.

End Concurrent.

(* ------------------------------------------------------------------ *)
(** ** The schema: start-up, the table endpoint, the health check *)

Module Schema.

(** The statements [server.js] issues besides those of the user endpoint:
    [SELECT NOW()], the [SELECT EXISTS (...)] over
    [information_schema.tables] for [users], and [CREATE TABLE users]. *)
Inductive statement : Type :=
| SelectNow
| UsersTableExists
| CreateUsersTable.

(** [rows[0]] of each: a time, the [exists] flag, nothing. *)
Inductive result : Type :=
| Time (t : Z)
| Exists_ (b : bool)
| Done.

(** The database with the [users] table there or not. *)
Record database : Type := mk_database {
  relation : option table;
  statements : list statement;
  pending : list (option pg_error)
}.

Definition duplicate_table : pg_error :=
  mk_error (Some "42P07") "relation users already exists".

Definition undefined_table : pg_error :=
  mk_error (Some "42P01") "relation users does not exist".

Definition there (rel : option table) : bool :=
  match rel with
  | Some _ => true
  | None => false
  end.

(** What the engine does with a statement: a table just created is empty,
    and creating one that is there is refused. *)
Definition run (s : statement) (now : Z) (rel : option table)
  : (pg_error + result) * option table :=
  match s with
  | SelectNow => (inr (Time now), rel)
  | UsersTableExists => (inr (Exists_ (there rel)), rel)
  | CreateUsersTable =>
      match rel with
      | Some _ => (inl duplicate_table, rel)
      | None => (inr Done, Some [])
      end
  end.

Definition D (A : Type) : Type := comp database pg_error A.

(** [db.query(text)] for these statements, faults as for [Pg.query]. *)
Definition query (s : statement) (now : Z) : D result :=
  fun db =>
    let log := s :: statements db in
    match pending db with
    | Some e :: rest => (inl e, mk_database (relation db) log rest)
    | upcoming =>
        let '(res, rel') := run s now (relation db) in
        (res, mk_database rel' log (tl upcoming))
    end.

(** [result.rows[0].exists] *)
Definition exists_of (r : result) : bool :=
  match r with
  | Exists_ b => b
  | _ => false
  end.

(** [result.rows[0].current_time] *)
Definition current_time_of (r : result) : jsval :=
  match r with
  | Time t => JNum t
  | _ => JUndefined
  end.

(** [throw new Error(msg)] *)
Definition Error (msg : string) : pg_error := mk_error None msg.

(** The [try] block of [initializeDatabase]. *)
Definition initializeDatabase_try (now : Z) : D unit :=
  _ <- query SelectNow now ;;
  tableCheck <- query UsersTableExists now ;;
  if negb (exists_of tableCheck) then
    _ <- query CreateUsersTable now ;;
    verifyTable <- query UsersTableExists now ;;
    if negb (exists_of verifyTable) then
      throw (Error "Failed to create users table - verification failed")
    else ret tt
  else ret tt.

(** [const initializeDatabase = async () => { try { ... } catch (error) {
    ... } }]: the [catch] logs and lets the server start. *)
Definition initializeDatabase (now : Z) (db : database) : database :=
  snd (try_catch (initializeDatabase_try now) (fun _ => tt) db).

(** The [try] block of [POST /api/db/create-table]. *)
Definition create_table_try (now : Z) : D response :=
  tableCheck <- query UsersTableExists now ;;
  if exists_of tableCheck then
    ret (json 200
           (JObj [("status", JStr "success");
                  ("message", JStr "Users table already exists");
                  ("table_exists", JBool true)]))
  else
    _ <- query CreateUsersTable now ;;
    verifyTable <- query UsersTableExists now ;;
    if exists_of verifyTable then
      ret (json 200
             (JObj [("status", JStr "success");
                    ("message", JStr "Users table created successfully");
                    ("table_exists", JBool true)]))
    else throw (Error "Table creation verification failed").

(** [app.post('/api/db/create-table', async (req, res) => ...)] *)
Definition create_table (now : Z) : database -> response * database :=
  try_catch (create_table_try now)
    (fun error =>
       json 500
         (JObj [("status", JStr "error");
                ("message", JStr "Failed to create users table");
                ("error", JStr (message error))])).

(** [app.get('/health', async (req, res) => ...)]; [timestamp] is
    [new Date().toISOString()] of the server. *)
Definition health (now : Z) (timestamp : string)
  : database -> response * database :=
  try_catch
    (dbTest <- query SelectNow now ;;
     ret (json 200
            (JObj [("status", JStr "ok");
                   ("timestamp", JStr timestamp);
                   ("service", JStr "giftunity-backend");
                   ("version", JStr "1.0.0");
                   ("database",
                    JObj [("connected", JBool true);
                          ("current_time", current_time_of dbTest)])])))
    (fun error =>
       json 503
         (JObj [("status", JStr "unhealthy");
                ("timestamp", JStr timestamp);
                ("service", JStr "giftunity-backend");
                ("version", JStr "1.0.0");
                ("database",
                 JObj [("connected", JBool false);
                       ("error", JStr (message error))])])).

(** The faults a statement over [users] meets when the table is not
    there: one the environment has in store comes first, else the engine
    raises [undefined_table]. *)
Definition without_relation (faults : list (option pg_error))
  : list (option pg_error) :=
  match faults with
  | Some e :: rest => Some e :: rest
  | None :: rest => Some undefined_table :: rest
  | [] => [Some undefined_table]
  end.

(** [POST /api/user/findOrCreate] against this database: the handler of
    [Backend] over the table when it is there, and meeting
    [undefined_table] at its first statement when it is not. *)
Definition user_request (NODE_ENV : option string) (now : Z) (body : jsval)
  (db : database) : response * database :=
  match relation db with
  | Some t =>
      let '(res, w) := findOrCreate NODE_ENV now body (mk_world t [] (pending db)) in
      (res, mk_database (Some (users w)) (statements db) (faults w))
  | None =>
      let '(res, w) :=
        findOrCreate NODE_ENV now body
          (mk_world [] [] (without_relation (pending db))) in
      (res,
       mk_database None (statements db)
         (match issued w with
          | [] => pending db
          | _ => faults w
          end))
  end.

End Schema.

(* ------------------------------------------------------------------ *)
(** ** The bot ([bot.js]) *)

Module Bot.

(** The three calls of [BackendAPI]. *)
Inductive api_call : Type :=
| PostFindOrCreate (userData : jsval)
| GetTranslations (language : jsval)
| GetSupportedLanguages.

(** What the network does with one HTTP request: nothing comes back
    ([ECONNREFUSED], DNS failure, ...) after [latency] milliseconds, or a
    response with a status and a parsed body arrives after [latency]. *)
Inductive exchange : Type :=
| NoResponse (latency : Z) (reason : string)
| Answer (latency : Z) (status : Z) (data : jsval).

(** [timeout: 5000] on every call. *)
Definition timeout : Z := 5000.

(** [await axios.get/post(url, { timeout })]: it resolves with
    [response.data] on a 2xx status within the timeout and rejects
    otherwise; the pair holds the milliseconds waited. *)
Definition axios (x : exchange) : (string + jsval) * Z :=
  match x with
  | NoResponse latency reason =>
      if timeout <=? latency then (inl "timeout of 5000ms exceeded", timeout)
      else (inl reason, latency)
  | Answer latency status data =>
      if timeout <=? latency then (inl "timeout of 5000ms exceeded", timeout)
      else if (200 <=? status) && (status <? 300) then (inr data, latency)
      else (inl "Request failed with status code", latency)
  end.

(** The surroundings of the bot: the Gateway's behaviour on the [n]-th call
    made, and whether Telegram accepts the [n]-th message sent. *)
Record environment : Type := mk_environment {
  gateway : nat -> api_call -> exchange;
  telegram : nat -> jsval -> bool
}.

(** What one update has done so far: the calls made (latest first), the
    milliseconds spent waiting for the Gateway, the texts handed to
    [ctx.reply] (latest first) and those of them Telegram accepted. *)
Record progress : Type := mk_progress {
  calls : list api_call;
  waited : Z;
  attempted : list jsval;
  delivered : list jsval
}.

Definition idle : progress := mk_progress [] 0 [] [].

(** Bot code throws JavaScript errors; [error.message] stands for them. *)
Definition B (A : Type) : Type := comp progress string A.

Definition request (env : environment) (c : api_call) : B jsval :=
  fun st =>
    let '(outcome, ms) := axios (gateway env (List.length (calls st)) c) in
    (outcome,
     mk_progress (c :: calls st) (waited st + ms) (attempted st) (delivered st)).

(** [async findOrCreateUser(userData)]: the [catch] logs and rethrows. *)
Definition findOrCreateUser (env : environment) (userData : jsval) : B jsval :=
  catch (request env (PostFindOrCreate userData)) (fun error => throw error).

(** [async getTranslations(language)] *)
Definition getTranslations (env : environment) (language : jsval) : B jsval :=
  catch (request env (GetTranslations language)) (fun error => throw error).

(** [async getSupportedLanguages()] *)
Definition getSupportedLanguages (env : environment) : B jsval :=
  catch (request env GetSupportedLanguages) (fun error => throw error).

(** [await ctx.reply(text)] *)
Definition reply (env : environment) (text : jsval) : B unit :=
  fun st =>
    if telegram env (List.length (attempted st)) text then
      (inr tt,
       mk_progress (calls st) (waited st) (text :: attempted st)
                   (text :: delivered st))
    else
      (inl "Telegram request failed",
       mk_progress (calls st) (waited st) (text :: attempted st) (delivered st)).

(** [o.k] as bot code evaluates it. *)
Definition get (o : jsval) (k : string) : B jsval :=
  match member o k with
  | Some v => ret v
  | None => throw "Cannot read properties of undefined"
  end.

(** The message embedded in the bot. *)
Definition fallback_message : jsval :=
  JStr "An error occurred. Please try again later.".

(** [const handleBotError = async (ctx, error, operation) => ...] *)
Definition handleBotError (env : environment) (error : string) : B unit :=
  catch
    (translations <- getTranslations env (JStr "en") ;;
     error_generic <- get translations "error_generic" ;;
     let errorMessage := or_else error_generic fallback_message in
     reply env errorMessage)
    (fun translationError => reply env fallback_message).

(** The [try] block of the [/start] handler, [user] being [ctx.from]. *)
Definition start_try (env : environment) (user : jsval) : B unit :=
  _ <- get user "id" ;;
  userRecord <- findOrCreateUser env user ;;
  preferred_language <- get userRecord "preferred_language" ;;
  let preferredLanguage := or_else preferred_language (JStr "en") in
  translations <- getTranslations env preferredLanguage ;;
  welcome_message <- get translations "welcome_message" ;;
  reply env welcome_message.

(** [bot.start(async (ctx) => { try { ... } catch (error) { await
    handleBotError(ctx, error, '/start command') } })] *)
Definition start (env : environment) (user : jsval) : B unit :=
  catch (start_try env user) (fun error => handleBotError env error).

(** Every call the Gateway gets is rejected: it is unreachable, too slow,
    or answers outside 2xx. *)
Definition rejects_all (env : environment) : Prop :=
  forall n c, exists msg ms, axios (gateway env n c) = (inl msg, ms).

(** *** The other handlers *)

(** The template literal of [bot.help], as its UTF-8 bytes. *)
Definition helpMessage : string := "
🤖 <b>Giftunity Bot Help</b>

<b>Available Commands:</b>
/start - Start using Giftunity
/help - Show this help message
/language - Change your language preference

<b>About Giftunity:</b>
Giftunity is a platform for managing gifts and sharing joy with others.

<b>Support:</b>
If you need help, please contact our support team.
    ".

(** The template literal of [bot.command('language')]. *)
Definition languageMessage : string := "
🌍 <b>Language Selection</b>

Supported languages:
• English (en)
• العربية (ar) - Arabic
• فارسی (fa) - Persian
• Русский (ru) - Russian
• Deutsch (de) - German
• 中文 (zh) - Chinese

To change your language, please contact support or use the web interface when available.
    ".

(** The [try] block of [bot.help]. *)
Definition help_try (env : environment) (user : jsval) : B unit :=
  userRecord <- findOrCreateUser env user ;;
  preferred_language <- get userRecord "preferred_language" ;;
  let preferredLanguage := or_else preferred_language (JStr "en") in
  translations <- getTranslations env preferredLanguage ;;
  reply env (JStr helpMessage).

(** [bot.help(async (ctx) => ...)] *)
Definition help (env : environment) (user : jsval) : B unit :=
  catch (help_try env user) (fun error => handleBotError env error).

(** The [try] block of [bot.command('language')]. *)
Definition language_try (env : environment) : B unit :=
  supportedLanguages <- getSupportedLanguages env ;;
  reply env (JStr languageMessage).

(** [bot.command('language', async (ctx) => ...)] *)
Definition language (env : environment) : B unit :=
  catch (language_try env) (fun error => handleBotError env error).

(** The [try] block of [bot.on('text')], [message] being [ctx.message]. *)
Definition text_try (env : environment) (user message : jsval) : B unit :=
  messageText <- get message "text" ;;
  _ <- get user "id" ;;
  userRecord <- findOrCreateUser env user ;;
  preferred_language <- get userRecord "preferred_language" ;;
  let preferredLanguage := or_else preferred_language (JStr "en") in
  translations <- getTranslations env preferredLanguage ;;
  reply env (JStr "Thank you for your message! More features are coming soon.").

(** [bot.on('text', async (ctx) => ...)] *)
Definition text (env : environment) (user message : jsval) : B unit :=
  catch (text_try env user message) (fun error => handleBotError env error).

(** *** The webhook address *)

(** [process.env.WEBHOOK_URL.startsWith('http') ? process.env.WEBHOOK_URL
    : `https://${process.env.WEBHOOK_URL}`] *)
Definition baseURL (WEBHOOK_URL : string) : string :=
  if String.prefix "http" WEBHOOK_URL then WEBHOOK_URL
  else ("https://" ++ WEBHOOK_URL)%string.

(** The path given to [bot.webhookCallback]. *)
Definition webhookPath (TELEGRAM_BOT_TOKEN : string) : string :=
  ("/bot" ++ TELEGRAM_BOT_TOKEN)%string.

(** [`${baseURL}/bot${process.env.TELEGRAM_BOT_TOKEN}`], given to
    [bot.telegram.setWebhook]. *)
Definition webhookURL (WEBHOOK_URL TELEGRAM_BOT_TOKEN : string) : string :=
  (baseURL WEBHOOK_URL ++ "/bot" ++ TELEGRAM_BOT_TOKEN)%string.

End Bot.

(* ------------------------------------------------------------------ *)
(** ** Vocabulary of the properties *)

Module Props.

(** A payload the spec calls valid, for the identity [z]: an object whose
    [id] is the positive 64-bit integer [z] and whose [first_name] is a
    non-empty string.  It passes the handler's validation; the engine may
    still refuse it or store something else than it holds, which is why
    what is said of stored records is said of a [storable_payload]. *)
Definition valid_payload (body : jsval) (z : Z) : bool :=
  match body with
  | JObj fields =>
      match lookup "id" fields, lookup "first_name" fields with
      | JNum k, JStr s =>
          (k =? z) && (0 <? z) && (z <=? BIGINT_MAX) && negb (s =? "")%string
      | _, _ => false
      end
  | _ => false
  end.

(** A payload the table stores as it is, for the identity [z]: a valid
    payload that is a Telegram user object, its [id] a safe integer, its
    [is_bot] there (the table of the migration wants it) and every field
    of the type and within the length of its column. *)
Definition storable_payload (body : jsval) (z : Z) : bool :=
  valid_payload body z && isSafeInteger z &&
  negb (is_null (bind (prop body "is_bot"))) &&
  typed (params_of body).



(** Requests served one after the other: mode, time and body of each. *)
Fixpoint serve_all (reqs : list (option string * Z * jsval)) (w : world)
  : world :=
  match reqs with
  | [] => w
  | (mode, now, body) :: later =>
      serve_all later (snd (findOrCreate mode now body w))
  end.

(** The files with the one at [path] replaced. *)
Definition with_file (fs : filesystem) (path : string)
  (content : option file_text) : filesystem :=
  fun p => if (p =? path)%string then content else fs p.

(** Two fault scripts that differ at most in the messages of the errors. *)
Fixpoint same_codes (fs1 fs2 : list (option pg_error)) : bool :=
  match fs1, fs2 with
  | [], [] => true
  | None :: r1, None :: r2 => same_codes r1 r2
  | Some e1 :: r1, Some e2 :: r2 =>
      match code e1, code e2 with
      | Some c1, Some c2 => (c1 =? c2)%string && same_codes r1 r2
      | None, None => same_codes r1 r2
      | _, _ => false
      end
  | _, _ => false
  end.


(** Two worlds with the same table whose fault scripts have the same codes. *)
Definition alike (w1 w2 : world) : Prop :=
  users w1 = users w2 /\ same_codes (faults w1) (faults w2) = true.

(** The platform columns of a row are those the payload binds. *)
Definition carries (p : params) (r : row) : Prop :=
  username r = bind (p_username p) /\
  first_name r = bind (p_first_name p) /\
  last_name r = bind (p_last_name p) /\
  language_code r = bind (p_language_code p) /\
  is_premium r = bind (p_is_premium p) /\
  is_bot r = bind (p_is_bot p) /\
  added_to_attachment_menu r = bind (p_added_to_attachment_menu p) /\
  can_join_groups r = bind (p_can_join_groups p) /\
  can_read_all_group_messages r = bind (p_can_read_all_group_messages p) /\
  supports_inline_queries r = bind (p_supports_inline_queries p).

(** Every row of key [z] has the payload's platform columns. *)
Definition clean (z : Z) (p : params) (t : table) : Prop :=
  forall r, In r t -> has_id z r = true -> carries p r.

(** How the table may change under a request in flight: a row of key [z]
    stays, and rows of key [z] that carry [p] still do. *)
Definition grows (z : Z) (p : params) (t t' : table) : Prop :=
  (existsb (has_id z) t = true -> existsb (has_id z) t' = true) /\
  (clean z p t -> clean z p t').

(** What a request in flight for [payload] (parameters [p], key [z]) can
    rely on, given the table as it is now. *)
Definition request_ok (z : Z) (payload : jsval) (t : table)
  (r : Concurrent.request) : Prop :=
  match r with
  | Concurrent.Received body => body = payload
  | Concurrent.Awaiting p [] =>
      p = params_of payload /\ clean z p t
  | Concurrent.Awaiting p (_ :: _) =>
      p = params_of payload /\ existsb (has_id z) t = true
  | Concurrent.Responded res =>
      existsb (has_id z) t = true /\ clean z (params_of payload) t /\
      (status res = 200 \/ status res = 201 \/ status res = 500)
  end.

(** The state kept by any interleaving of requests for one payload. *)
Definition race_invariant (z : Z) (payload : jsval)
  (rs : list Concurrent.request) (w : world) : Prop :=
  NoDup (map id (users w)) /\ faults w = [] /\
  Forall (request_ok z payload (users w)) rs.

(** How far a request has come: no query yet, one, or answered. *)
Definition rank (r : Concurrent.request) : nat :=
  match r with
  | Concurrent.Received _ => 0
  | Concurrent.Awaiting _ _ => 1
  | Concurrent.Responded _ => 2
  end.

Definition rank_at (rs : list Concurrent.request) (i : nat) : nat :=
  match nth_error rs i with
  | Some r => rank r
  | None => 2
  end.

(** The turns a schedule gives to request [i]. *)
Definition turns_of (i : nat) (schedule : list (nat * Z)) : nat :=
  List.length (filter (fun e => Nat.eqb (fst e) i) schedule).

(** Each of the [n] requests gets its two turns. *)
Definition fair (n : nat) (schedule : list (nat * Z)) : bool :=
  forallb (fun i => Nat.leb 2 (turns_of i schedule)) (seq 0 n).


(** The text [handleBotError] offers Telegram first when its request for
    the "en" bundle is the [n]-th call to the Gateway. *)
Definition error_text (env : Bot.environment) (n : nat) : jsval :=
  match Bot.axios (Bot.gateway env n (Bot.GetTranslations (JStr "en"))) with
  | (inr translations, _) =>
      match member translations "error_generic" with
      | Some error_generic => or_else error_generic Bot.fallback_message
      | None => Bot.fallback_message
      end
  | (inl _, _) => Bot.fallback_message
  end.

(** The one message [handleBotError] delivers when its request for the
    "en" bundle is the [n]-th call to the Gateway and [k] texts have been
    handed to Telegram before: the text above if Telegram accepts it, the
    built-in message if not. *)
Definition error_reply (env : Bot.environment) (n k : nat) : jsval :=
  if Bot.telegram env k (error_text env n) then error_text env n
  else Bot.fallback_message.

End Props.
Import Props.

(* ------------------------------------------------------------------ *)
(** ** Vocabulary of the further properties *)

Module More.

(** A request answered 201. *)
Definition created (q : Concurrent.request) : bool :=
  match q with
  | Concurrent.Responded res => status res =? 201
  | _ => false
  end.

(** A request answered 200. *)
Definition updated (q : Concurrent.request) : Prop :=
  exists res, q = Concurrent.Responded res /\ status res = 200.

(** The codes [GET /api/translations] lists. *)
Definition advertised : list jsval :=
  match prop (body listTranslations) "supportedLanguages" with
  | JArr codes => codes
  | _ => []
  end.

(** The Gateway answers a call in time with what a backend handler
    responds. *)
Definition answers_as (x : Bot.exchange) (r : response) : Prop :=
  exists latency,
    latency < Bot.timeout /\ x = Bot.Answer latency (status r) (body r).

(** The language of the bundle the bot asks for, given the row the table
    holds for the user, if any, before the upsert. *)
Definition bundle_for (stored : option row) : string :=
  match stored with
  | Some r =>
      match preferred_language r with
      | Some l => if (l =? "")%string then "en" else l
      | None => "en"
      end
  | None => "en"
  end.

(** A letter, a digit, [-] or [_]. *)
Definition plain_char (c : ascii) : bool :=
  (("a" <=? c) && (c <=? "z") || ("A" <=? c) && (c <=? "Z") ||
   ("0" <=? c) && (c <=? "9") || (c =? "-") || (c =? "_"))%char.

(** A language that [`${this.baseURL}/api/translations/${language}`]
    carries to the handler as [req.params.lang] unchanged: the text is put
    into the address as it is, so one with [?], [#], [/] or [%] in it
    would reach the backend as another code or at another route. *)
Fixpoint plain (s : string) : bool :=
  match s with
  | EmptyString => true
  | String c rest => plain_char c && plain rest
  end.

(** What a handler of the bot may have done to the progress of an update
    after at most [k] calls, having delivered [sent] more messages. *)
Definition within (k : nat) (st st' : Bot.progress) : Prop :=
  (List.length (Bot.calls st') <= List.length (Bot.calls st) + k)%nat /\
  Bot.waited st' <= Bot.waited st + Z.of_nat k * Bot.timeout.

(** A request for [payload] that has not met an empty [SELECT]. *)
Definition update_only (payload : jsval) (q : Concurrent.request) : Prop :=
  match q with
  | Concurrent.Received body => body = payload
  | Concurrent.Awaiting p (_ :: _) => p = params_of payload
  | Concurrent.Awaiting _ [] => False
  | Concurrent.Responded res => status res = 200
  end.

(** A [try] block of the bot that makes at most [k] calls and either
    ends having delivered one message or throws having delivered none, the
    latter when the Gateway rejects every call. *)
Definition orderly (env : Bot.environment) (k : nat) (m : Bot.B unit) : Prop :=
  forall st, exists outcome st',
    m st = (outcome, st') /\ within k st st' /\
    match outcome with
    | inr _ => exists text, Bot.delivered st' = text :: Bot.delivered st
    | inl _ => Bot.delivered st' = Bot.delivered st
    end /\
    (Bot.rejects_all env -> exists msg, outcome = inl msg).

End More.
Import More.

(* ================================================================== *)
(** * Properties *)

(** ** The engine and the driver *)

Lemma bind_defined v : bind v <> JUndefined.
Proof. destruct v; discriminate. Qed.

Lemma nullable_defined v : nullable v <> JUndefined.
Proof. destruct v; discriminate. Qed.

Lemma stringify_cons k v rest :
  v <> JUndefined ->
  stringify_fields ((k, v) :: rest) = (k, v) :: stringify_fields rest.
Proof. destruct v; intros H; try reflexivity. now elim H. Qed.

Ltac defined :=
  first [ apply bind_defined | apply nullable_defined | discriminate ].

Lemma stringify_row r :
  Forall (fun v => v <> JUndefined)
    [username r; first_name r; last_name r; language_code r; is_premium r;
     is_bot r; added_to_attachment_menu r; can_join_groups r;
     can_read_all_group_messages r; supports_inline_queries r] ->
  forall s, json s (row_json r) = mk_response s (row_json r).
Proof.
  intros H s. unfold json, row_json. do 2 f_equal.
  repeat match goal with
         | H : Forall _ (_ :: _) |- _ => inversion H; clear H; subst
         end.
  repeat (rewrite stringify_cons; [ f_equal | first [assumption | defined] ]).
Qed.

Lemma json_set_columns s p now r :
  json s (row_json (set_columns p now r))
  = mk_response s (row_json (set_columns p now r)).
Proof. apply stringify_row. repeat constructor; apply bind_defined. Qed.

Lemma json_new_row s k p now :
  json s (row_json (new_row k p now)) = mk_response s (row_json (new_row k p now)).
Proof. apply stringify_row. repeat constructor; apply bind_defined. Qed.

Lemma find_filter_some {A} (f : A -> bool) l r :
  find f l = Some r -> exists rest, filter f l = r :: rest.
Proof.
  induction l as [|a l IH]; simpl; [discriminate|].
  destruct (f a); [intros [= ->]; eauto | exact IH].
Qed.

Lemma find_filter_none {A} (f : A -> bool) l :
  find f l = None -> filter f l = [] /\ existsb f l = false.
Proof.
  induction l as [|a l IH]; simpl; [auto|].
  destruct (f a); [discriminate | exact IH].
Qed.

Lemma find_existsb {A} (f : A -> bool) l r :
  find f l = Some r -> existsb f l = true.
Proof.
  induction l as [|a l IH]; simpl; [discriminate|].
  destruct (f a); [reflexivity | exact IH].
Qed.

Lemma filter_update_where z p now t :
  filter (has_id z) (update_where z p now t)
  = map (set_columns p now) (filter (has_id z) t).
Proof.
  unfold update_where.
  induction t as [|r t IH]; simpl; [reflexivity|].
  destruct (has_id z r) eqn:E; simpl.
  - unfold has_id at 1; simpl. unfold has_id in E. rewrite E, IH. reflexivity.
  - rewrite E. exact IH.
Qed.



Lemma valid_payload_inv body z :
  valid_payload body z = true ->
  exists fields s,
    body = JObj fields /\ lookup "id" fields = JNum z /\
    0 < z <= BIGINT_MAX /\ lookup "first_name" fields = JStr s /\ s <> "".
Proof.
  unfold valid_payload. destruct body; try discriminate.
  destruct (lookup "id" fields) eqn:Ei; try discriminate.
  destruct (lookup "first_name" fields) eqn:Ef; try discriminate.
  rewrite !andb_true_iff, negb_true_iff, Z.eqb_eq, Z.ltb_lt, Z.leb_le.
  intros [[[-> Hp] Hm] Hs]. exists fields, s. repeat split; auto.
  intros ->. discriminate.
Qed.

Lemma bind_id_valid z :
  0 < z <= BIGINT_MAX -> bind_id (JNum z) = inr (Some z).
Proof.
  intros [H1 H2]. unfold bind_id; simpl.
  assert (BIGINT_MIN <= z) by (unfold BIGINT_MIN; lia).
  destruct (BIGINT_MIN <=? z) eqn:E1; [|apply Z.leb_gt in E1; lia].
  destruct (z <=? BIGINT_MAX) eqn:E2; [reflexivity|apply Z.leb_gt in E2; lia].
Qed.

Lemma storable_valid body z :
  storable_payload body z = true -> valid_payload body z = true.
Proof.
  unfold storable_payload. rewrite !andb_true_iff. tauto.
Qed.

Lemma bind_id_safe z :
  isSafeInteger z = true -> bind_id (JNum z) = inr (Some z).
Proof.
  unfold isSafeInteger, MAX_SAFE_INTEGER. rewrite andb_true_iff, !Z.leb_le.
  intros [H1 H2]. unfold bind_id; simpl.
  destruct (Z.leb_spec BIGINT_MIN z) as [_|H];
    [|unfold BIGINT_MIN in H; lia].
  destruct (Z.leb_spec z BIGINT_MAX) as [_|H];
    [reflexivity | unfold BIGINT_MAX in H; lia].
Qed.

Lemma query_quiet s now w :
  faults w = [] ->
  query s now w =
  (fst (execute s now (users w)),
   mk_world (snd (execute s now (users w))) (s :: issued w) []).
Proof.
  intros Hq. unfold query. rewrite Hq.
  destruct (execute s now (users w)); reflexivity.
Qed.

Lemma after_select_cons now p r rest :
  after_select now p (r :: rest) =
  (updatedUser <- query (UpdateUser p) now ;; ret (json 200 (rows0 updatedUser))).
Proof.
  unfold after_select. cbn [List.length]. rewrite Nat2Z.inj_succ.
  destruct (0 <? Z.succ (Z.of_nat (List.length rest))) eqn:E; [reflexivity|].
  apply Z.ltb_ge in E. lia.
Qed.

Lemma after_select_nil now p :
  after_select now p [] =
  (newUser <- query (InsertUser p) now ;; ret (json 201 (rows0 newUser))).
Proof. reflexivity. Qed.

Lemma execute_update_valid p z s now t :
  p_id p = JNum z -> 0 < z <= BIGINT_MAX -> p_first_name p = JStr s ->
  execute (UpdateUser p) now t =
  (inr (map (set_columns p now) (filter (has_id z) t)), update_where z p now t).
Proof.
  intros Hid Hz Hfn. cbn [execute].
  rewrite Hid, (bind_id_valid z Hz), Hfn. cbn [bind is_null andb].
  now rewrite filter_update_where.
Qed.

Lemma execute_insert_valid p z s now t :
  p_id p = JNum z -> 0 < z <= BIGINT_MAX -> p_first_name p = JStr s ->
  execute (InsertUser p) now t =
  if existsb (has_id z) t then (inl unique_violation, t)
  else (inr [new_row z p now], t ++ [new_row z p now]).
Proof.
  intros Hid Hz Hfn. cbn [execute].
  rewrite Hid, (bind_id_valid z Hz), Hfn. reflexivity.
Qed.

Lemma execute_select_valid z now t :
  0 < z <= BIGINT_MAX ->
  execute (SelectById (JNum z)) now t = (inr (filter (has_id z) t), t).
Proof. intros Hz. cbn [execute]. now rewrite (bind_id_valid z Hz). Qed.

(** What the handler does with a valid payload when the engine raises no
    fault: one [SELECT], then the [UPDATE] or the [INSERT]. *)
Lemma findOrCreate_valid mode now body z w :
  valid_payload body z = true -> faults w = [] ->
  let p := params_of body in
  findOrCreate mode now body w =
  match find (has_id z) (users w) with
  | Some r =>
      (mk_response 200 (row_json (set_columns p now r)),
       mk_world (update_where z p now (users w))
                (UpdateUser p :: SelectById (JNum z) :: issued w) [])
  | None =>
      (mk_response 201 (row_json (new_row z p now)),
       mk_world (users w ++ [new_row z p now])
                (InsertUser p :: SelectById (JNum z) :: issued w) [])
  end.
Proof.
  intros Hv Hq p.
  destruct (valid_payload_inv _ _ Hv) as (fields & s & -> & Hid & Hz & Hfn & Hs).
  assert (Hne : (s =? "")%string = false) by now apply String.eqb_neq.
  assert (Hz0 : (z =? 0) = false) by (apply Z.eqb_neq; lia).
  assert (Hpid : p_id p = JNum z) by exact Hid.
  assert (Hpfn : p_first_name p = JStr s) by exact Hfn.
  unfold findOrCreate, try_catch, findOrCreate_try, bindM, destructure, ret.
  fold p. unfold missing_required. rewrite Hpid, Hpfn. cbn [truthy].
  rewrite Hz0, Hne. cbn [negb orb].
  rewrite (query_quiet _ _ _ Hq), (execute_select_valid z now _ Hz).
  cbn [fst snd].
  destruct (find (has_id z) (users w)) as [r|] eqn:Ef.
  - destruct (find_filter_some _ _ _ Ef) as [rest Hf]. rewrite Hf.
    rewrite after_select_cons. unfold bindM, ret.
    rewrite query_quiet by reflexivity. cbn [users issued].
    rewrite (execute_update_valid p z s now _ Hpid Hz Hpfn), Hf.
    cbn [fst snd map rows0]. now rewrite json_set_columns.
  - destruct (find_filter_none _ _ Ef) as [Hf Hex]. rewrite Hf.
    rewrite after_select_nil. unfold bindM, ret.
    rewrite query_quiet by reflexivity. cbn [users issued].
    rewrite (execute_insert_valid p z s now _ Hpid Hz Hpfn), Hex.
    cbn [fst snd rows0]. now rewrite json_new_row.
Qed.

(** *** What no statement of the endpoint undoes *)









(* ------------------------------------------------------------------ *)
(** ** The user endpoint, one request at a time *)









Lemma status_json s b : status (json s b) = s.
Proof. destruct b; reflexivity. Qed.

Lemma status_catch mode e :
  status (findOrCreate_catch mode e) = 503 \/
  status (findOrCreate_catch mode e) = 500.
Proof.
  unfold findOrCreate_catch.
  destruct (code_is e "ECONNREFUSED" || code_is e "ENOTFOUND");
    [left; apply status_json|].
  destruct (code_is e "42P01"); [left | right]; apply status_json.
Qed.

Lemma query_issued s now w : issued (snd (query s now w)) = s :: issued w.
Proof.
  unfold query. destruct (faults w) as [|[e|] rest];
    try destruct (execute s now (users w)); reflexivity.
Qed.

(** C4, as the spec words it, fails: a negative id is not a positive
    integer, yet the request is not answered 400 and reaches the table. *)
Lemma negative_id_reaches_storage :
  let payload := JObj [("id", JNum (-5)); ("first_name", JStr "Ana")] in
  let run := findOrCreate (Some "production") 10 payload (mk_world [] [] []) in
  status (fst run) = 201 /\ status (fst run) <> 400 /\
  issued (snd run) = [InsertUser (params_of payload); SelectById (JNum (-5))] /\
  List.length (users (snd run)) = 1%nat.
Proof. vm_compute. repeat split. discriminate. Qed.

(** C4, amended. The handler answers 400 exactly when [!id || !first_name]
    holds of the body: then nothing is asked of the engine and the world is
    as before; otherwise the answer is not 400 and the [SELECT] has been
    issued.  The empty body is answered 400. *)
Theorem validation_boundary mode now fields w :
  let payload := JObj fields in
  let run := findOrCreate mode now payload w in
  (if negb (truthy (lookup "id" fields)) ||
      negb (truthy (lookup "first_name" fields))
   then fst run = bad_request /\ status (fst run) = 400 /\ snd run = w
   else status (fst run) <> 400 /\
        exists later,
          issued (snd run) = later ++ SelectById (lookup "id" fields) :: issued w)
  /\ findOrCreate mode now (JObj []) w = (bad_request, w).
Proof.
  intros payload run. split; [|reflexivity].
  subst run payload. unfold findOrCreate, try_catch, findOrCreate_try, bindM.
  unfold destructure, ret.
  assert (Hm : missing_required (params_of (JObj fields))
               = negb (truthy (lookup "id" fields)) ||
                 negb (truthy (lookup "first_name" fields))) by reflexivity.
  rewrite Hm. clear Hm.
  destruct (negb (truthy (lookup "id" fields)) ||
            negb (truthy (lookup "first_name" fields))); [now repeat split|].
  change (p_id (params_of (JObj fields))) with (lookup "id" fields).
  set (p := params_of (JObj fields)).
  pose proof (query_issued (SelectById (lookup "id" fields)) now w) as I1.
  destruct (query (SelectById (lookup "id" fields)) now w) as [[e|rows] w1];
    cbn [snd fst] in *.
  - split; [destruct (status_catch mode e) as [-> | ->]; discriminate|].
    exists []. exact I1.
  - unfold after_select.
    destruct (0 <? Z.of_nat (List.length rows)); unfold bindM, ret.
    + pose proof (query_issued (UpdateUser p) now w1) as I2.
      destruct (query (UpdateUser p) now w1) as [[e|rows'] w2];
        cbn [snd fst] in *.
      * split; [destruct (status_catch mode e) as [-> | ->]; discriminate|].
        exists [UpdateUser p]. rewrite I2, I1. reflexivity.
      * split; [rewrite status_json; discriminate|].
        exists [UpdateUser p]. rewrite I2, I1. reflexivity.
    + pose proof (query_issued (InsertUser p) now w1) as I2.
      destruct (query (InsertUser p) now w1) as [[e|rows'] w2];
        cbn [snd fst] in *.
      * split; [destruct (status_catch mode e) as [-> | ->]; discriminate|].
        exists [InsertUser p]. rewrite I2, I1. reflexivity.
      * split; [rewrite status_json; discriminate|].
        exists [InsertUser p]. rewrite I2, I1. reflexivity.
Qed.

(* ------------------------------------------------------------------ *)
(** ** The translation endpoint *)

Lemma length_append (a b : string) :
  String.length (a ++ b) = (String.length a + String.length b)%nat.
Proof. induction a as [|c a IH]; simpl; [reflexivity | now rewrite IH]. Qed.

Lemma append_cancel_r (a b s : string) : (a ++ s = b ++ s)%string -> a = b.
Proof.
  revert b. induction a as [|c a IH]; intros [|d b] H; simpl in H.
  - reflexivity.
  - apply (f_equal String.length) in H. simpl in H.
    rewrite length_append in H. lia.
  - apply (f_equal String.length) in H. simpl in H.
    rewrite length_append in H. lia.
  - injection H as -> H. f_equal. now apply IH.
Qed.

Lemma filePath_inj a b : filePath a = filePath b -> a = b.
Proof.
  unfold filePath. intros H. simpl in H.
  repeat match type of H with
         | String _ _ = String _ _ => injection H as H
         end.
  now apply append_cancel_r in H.
Qed.

Lemma supported_cases lang :
  includes supportedLanguages lang = true ->
  lang = "en" \/ lang = "ar" \/ lang = "fa" \/
  lang = "ru" \/ lang = "de" \/ lang = "zh".
Proof.
  unfold includes, supportedLanguages. cbn [existsb].
  rewrite !orb_true_iff, !String.eqb_eq. intuition discriminate.
Qed.

Lemma supported_shape lang :
  includes supportedLanguages lang = true -> two_lowercase lang = true.
Proof.
  intros H. apply supported_cases in H.
  destruct H as [-> | [-> | [-> | [-> | [-> | ->]]]]]; reflexivity.
Qed.

Lemma two_lowercase_truthy lang :
  two_lowercase lang = true -> truthy (JStr lang) = true.
Proof. destruct lang; [discriminate | reflexivity]. Qed.

(** A supported code is answered from its file alone. *)
Lemma getTranslations_supported fs lang :
  includes supportedLanguages lang = true ->
  getTranslations fs lang =
  match fs (filePath lang) with
  | Some (Denotes translations) => json 200 translations
  | Some (Unparsable _) =>
      mk_response 500
        (JObj [("error", JStr "Translation service error");
               ("message", JStr "Invalid translation file format")])
  | None =>
      mk_response 500
        (JObj [("error", JStr "Translation service error");
               ("message", JStr "Failed to load translation file")])
  end.
Proof.
  intros Hin. unfold getTranslations.
  rewrite (supported_shape _ Hin), (two_lowercase_truthy _ (supported_shape _ Hin)).
  rewrite Hin. cbn [negb orb].
  destruct (fs (filePath lang)) as [[v|raw]|]; reflexivity.
Qed.

(** C6. A code of two lowercase letters outside the six supported ones is
    answered 404 with exactly that list, and a code that is not two
    lowercase letters is answered 400; the files play no part. *)
Theorem unsupported_language fs lang :
  (two_lowercase lang = true -> includes supportedLanguages lang = false ->
   getTranslations fs lang =
   mk_response 404
     (JObj [("error", JStr "Language not supported");
            ("supportedLanguages",
             JArr [JStr "en"; JStr "ar"; JStr "fa";
                   JStr "ru"; JStr "de"; JStr "zh"])])) /\
  (two_lowercase lang = false ->
   getTranslations fs lang =
   mk_response 400
     (JObj [("error", JStr "Invalid language code");
            ("message", JStr "Language code must be a 2-letter ISO code")])).
Proof.
  unfold getTranslations. split.
  - intros Hshape Hout.
    rewrite Hshape, (two_lowercase_truthy _ Hshape), Hout. reflexivity.
  - intros Hshape. rewrite Hshape, orb_true_r. reflexivity.
Qed.

Lemma unsupported_language_witness :
  getTranslations (fun _ => None) "xx"
  = mk_response 404
      (JObj [("error", JStr "Language not supported");
             ("supportedLanguages",
              JArr [JStr "en"; JStr "ar"; JStr "fa";
                    JStr "ru"; JStr "de"; JStr "zh"])])
  /\ getTranslations (fun _ => None) "EN"
  = mk_response 400
      (JObj [("error", JStr "Invalid language code");
             ("message", JStr "Language code must be a 2-letter ISO code")]).
Proof.
  split.
  - exact (proj1 (unsupported_language (fun _ => None) "xx") eq_refl eq_refl).
  - exact (proj2 (unsupported_language (fun _ => None) "EN") eq_refl).
Defined.

(** C7, as the spec words it, fails: the second request does not return
    what the first one loaded; it returns what the file holds by then. *)
Lemma bundle_reread_on_every_request :
  let hello := JObj [("welcome_message", JStr "Hello")] in
  let hi := JObj [("welcome_message", JStr "Hi")] in
  let before := with_file (fun _ => None) (filePath "en") (Some (Denotes hello)) in
  let after := with_file before (filePath "en") (Some (Denotes hi)) in
  getTranslations before "en" = mk_response 200 hello /\
  getTranslations after "en" = mk_response 200 hi /\
  getTranslations after "en" <> getTranslations before "en".
Proof. vm_compute. repeat split. discriminate. Qed.

(** C7, amended. A request for a supported code is answered from the file
    as it is when the request is served: with the value its text denotes
    now, and, once the file has been replaced, with the value of the new
    text, whatever was served before. *)
Theorem bundle_read_per_request fs lang translations :
  includes supportedLanguages lang = true ->
  fs (filePath lang) = Some (Denotes translations) ->
  getTranslations fs lang = json 200 translations /\
  forall replaced,
    getTranslations (with_file fs (filePath lang) (Some (Denotes replaced))) lang
    = json 200 replaced.
Proof.
  intros Hin Hfile. split.
  - now rewrite (getTranslations_supported fs lang Hin), Hfile.
  - intros replaced. rewrite (getTranslations_supported _ lang Hin).
    unfold with_file. now rewrite String.eqb_refl.
Qed.

Lemma bundle_read_per_request_witness :
  let ahlan := JObj [("welcome_message", JStr "Ahlan")] in
  let marhaban := JObj [("welcome_message", JStr "Marhaban")] in
  let fs := with_file (fun _ => None) (filePath "ar") (Some (Denotes ahlan)) in
  getTranslations fs "ar" = json 200 ahlan /\
  getTranslations (with_file fs (filePath "ar") (Some (Denotes marhaban))) "ar"
  = json 200 marhaban.
Proof.
  intros ahlan marhaban fs.
  pose proof (bundle_read_per_request fs "ar" ahlan eq_refl eq_refl) as H.
  exact (conj (proj1 H) (proj2 H marhaban)).
Defined.

(** C9. When the text of a supported code's file is not JSON, the request
    for that code is answered 500 "Invalid translation file format", and
    the request for any other code is answered as it would be had the file
    any other content. *)
Theorem corrupt_bundle_isolated fs lang raw :
  includes supportedLanguages lang = true ->
  fs (filePath lang) = Some (Unparsable raw) ->
  getTranslations fs lang =
    mk_response 500
      (JObj [("error", JStr "Translation service error");
             ("message", JStr "Invalid translation file format")]) /\
  forall other content,
    other <> lang ->
    getTranslations fs other
    = getTranslations (with_file fs (filePath lang) content) other.
Proof.
  intros Hin Hbad. split.
  - rewrite (getTranslations_supported fs lang Hin), Hbad. reflexivity.
  - intros other content Hne. unfold getTranslations, with_file.
    destruct (filePath other =? filePath lang)%string eqn:E; [|reflexivity].
    apply String.eqb_eq, filePath_inj in E. contradiction.
Qed.

Lemma corrupt_bundle_isolated_witness :
  let fs :=
    with_file
      (with_file (fun _ => None) (filePath "en")
         (Some (Denotes (JObj [("welcome_message", JStr "Hello")]))))
      (filePath "de") (Some (Unparsable "{ welcome_message: ")) in
  getTranslations fs "de" =
    mk_response 500
      (JObj [("error", JStr "Translation service error");
             ("message", JStr "Invalid translation file format")]) /\
  getTranslations fs "en"
  = getTranslations (with_file fs (filePath "de") None) "en".
Proof.
  intros fs.
  pose proof (corrupt_bundle_isolated fs "de" "{ welcome_message: "
                eq_refl eq_refl) as H.
  split.
  - exact (proj1 H).
  - apply (proj2 H). discriminate.
Defined.

(* ------------------------------------------------------------------ *)
(** ** What the user endpoint tells of an internal error *)

Lemma same_codes_tl f1 f2 :
  same_codes f1 f2 = true -> same_codes (tl f1) (tl f2) = true.
Proof.
  destruct f1 as [|[e1|] r1], f2 as [|[e2|] r2]; simpl; try discriminate; auto.
  destruct (code e1), (code e2); try discriminate; auto.
  now rewrite andb_true_iff.
Qed.

Lemma query_alike s now w1 w2 :
  alike w1 w2 ->
  match query s now w1, query s now w2 with
  | (inl e1, w1'), (inl e2, w2') => code e1 = code e2 /\ alike w1' w2'
  | (inr rows1, w1'), (inr rows2, w2') => rows1 = rows2 /\ alike w1' w2'
  | _, _ => False
  end.
Proof.
  intros [Hu Hc]. unfold query. rewrite <- Hu.
  pose proof (same_codes_tl _ _ Hc) as Ht.
  destruct (faults w1) as [|[e1|] r1], (faults w2) as [|[e2|] r2];
    simpl in Hc, Ht; try discriminate.
  - destruct (execute s now (users w1)) as [[e|rows] t']; repeat split; auto.
  - split; [|split; auto].
    destruct (code e1), (code e2); try discriminate; auto.
    apply andb_true_iff in Hc. destruct Hc as [Hc _].
    apply String.eqb_eq in Hc. now subst.
  - destruct (execute s now (users w1)) as [[e|rows] t']; repeat split; auto.
Qed.

Lemma code_is_same e1 e2 c : code e1 = code e2 -> code_is e1 c = code_is e2 c.
Proof. unfold code_is. now intros ->. Qed.

Lemma catch_production e1 e2 :
  code e1 = code e2 ->
  findOrCreate_catch (Some "production") e1
  = findOrCreate_catch (Some "production") e2.
Proof.
  intros H. unfold findOrCreate_catch.
  rewrite !(code_is_same e1 e2 _ H). reflexivity.
Qed.

Lemma production_response_alike now payload w1 w2 :
  alike w1 w2 ->
  fst (findOrCreate (Some "production") now payload w1)
  = fst (findOrCreate (Some "production") now payload w2).
Proof.
  intros Ha. unfold findOrCreate, try_catch, findOrCreate_try, bindM.
  assert (Hd : forall w, destructure payload w = (inr (params_of payload), w) \/
                         exists e, forall w, destructure payload w = (inl e, w)).
  { unfold destructure, ret, throw. destruct payload; eauto. }
  destruct (Hd w1) as [H1 | [e He]].
  - assert (H2 : destructure payload w2 = (inr (params_of payload), w2)).
    { revert H1. unfold destructure, ret, throw. destruct payload; try discriminate; auto. }
    rewrite H1, H2.
    destruct (missing_required (params_of payload)); [reflexivity|].
    pose proof (query_alike (SelectById (p_id (params_of payload))) now _ _ Ha) as Q.
    destruct (query (SelectById (p_id (params_of payload))) now w1) as [[e1|rows1] w1'],
             (query (SelectById (p_id (params_of payload))) now w2) as [[e2|rows2] w2'];
      try contradiction; destruct Q as [Q Ha'].
    + cbn [fst]. now apply catch_production.
    + subst rows2. unfold after_select.
      destruct (0 <? Z.of_nat (List.length rows1)); unfold bindM, ret.
      * pose proof (query_alike (UpdateUser (params_of payload)) now _ _ Ha') as Q.
        destruct (query (UpdateUser (params_of payload)) now w1') as [[e1|r1] w1''],
                 (query (UpdateUser (params_of payload)) now w2') as [[e2|r2] w2''];
          try contradiction; destruct Q as [Q _]; cbn [fst].
        -- now apply catch_production.
        -- now subst.
      * pose proof (query_alike (InsertUser (params_of payload)) now _ _ Ha') as Q.
        destruct (query (InsertUser (params_of payload)) now w1') as [[e1|r1] w1''],
                 (query (InsertUser (params_of payload)) now w2') as [[e2|r2] w2''];
          try contradiction; destruct Q as [Q _]; cbn [fst].
        -- now apply catch_production.
        -- now subst.
  - rewrite (He w1), (He w2). reflexivity.
Qed.

Lemma catch_body mode e :
  exists category msg,
    body (findOrCreate_catch mode e) =
    JObj (("error", JStr category) :: ("message", JStr msg) ::
          if is_development mode then [("details", JStr (message e))] else []).
Proof.
  unfold findOrCreate_catch, details.
  destruct (code_is e "ECONNREFUSED" || code_is e "ENOTFOUND");
    [|destruct (code_is e "42P01")];
    destruct (is_development mode); do 2 eexists; reflexivity.
Qed.

(** C10. When the handler's [try] block throws, the body of the answer
    carries [details], the error's message, exactly when
    [NODE_ENV === 'development']; [error] and [message] are always there;
    and under "production" two runs that differ only in the messages of
    the errors the engine raises are answered alike. *)
Theorem error_detail_only_in_development mode now payload w e w' w2 :
  findOrCreate_try now payload w = (inl e, w') ->
  alike w w2 ->
  let res := fst (findOrCreate mode now payload w) in
  has_key "details" (body res) = is_development mode /\
  is_development (Some "production") = false /\
  prop (body res) "details"
  = (if is_development mode then JStr (message e) else JUndefined) /\
  (exists category msg,
     prop (body res) "error" = JStr category /\
     prop (body res) "message" = JStr msg) /\
  fst (findOrCreate (Some "production") now payload w)
  = fst (findOrCreate (Some "production") now payload w2).
Proof.
  intros Hthrow Ha res.
  assert (Hres : res = findOrCreate_catch mode e).
  { subst res. unfold findOrCreate, try_catch. now rewrite Hthrow. }
  destruct (catch_body mode e) as (category & msg & Hb).
  rewrite Hres, Hb.
  repeat split.
  - destruct (is_development mode); reflexivity.
  - destruct (is_development mode); reflexivity.
  - exists category, msg. split; reflexivity.
  - now apply production_response_alike.
Qed.

Lemma error_detail_only_in_development_witness :
  let refused := mk_error (Some "ECONNREFUSED") "connect ECONNREFUSED 10.0.0.1:5432" in
  let refused' := mk_error (Some "ECONNREFUSED") "connect ECONNREFUSED 10.0.0.2:5432" in
  let payload := JObj [("id", JNum 42); ("first_name", JStr "Ana")] in
  let w := mk_world [] [] [Some refused] in
  let w2 := mk_world [] [] [Some refused'] in
  let res := fst (findOrCreate (Some "development") 10 payload w) in
  has_key "details" (body res) = true /\
  is_development (Some "production") = false /\
  prop (body res) "details" = JStr "connect ECONNREFUSED 10.0.0.1:5432" /\
  (exists category msg,
     prop (body res) "error" = JStr category /\
     prop (body res) "message" = JStr msg) /\
  fst (findOrCreate (Some "production") 10 payload w)
  = fst (findOrCreate (Some "production") 10 payload w2).
Proof.
  intros refused refused' payload w w2.
  exact (error_detail_only_in_development (Some "development") 10 payload w
           refused (mk_world [] [SelectById (JNum 42)] []) w2
           eq_refl (conj eq_refl eq_refl)).
Defined.

(* ------------------------------------------------------------------ *)
(** ** The user endpoint under concurrent requests *)

Section Race.

Import Concurrent.

Variables (mode : option string) (payload : jsval) (z : Z).
Hypothesis Hvalid : valid_payload payload z = true.

Local Abbreviation p := (params_of payload).

Lemma race_params :
  exists s, p_id p = JNum z /\ 0 < z <= BIGINT_MAX /\ p_first_name p = JStr s /\
            missing_required p = false /\
            destructure payload = ret p.
Proof.
  destruct (valid_payload_inv _ _ Hvalid) as (fields & s & E & Hid & Hz & Hfn & Hs).
  exists s. rewrite E. cbn [params_of prop p_id p_first_name].
  repeat split; auto; try tauto.
  unfold missing_required. cbn [params_of prop p_id p_first_name].
  rewrite Hid, Hfn. cbn [truthy].
  replace (z =? 0) with false by (symmetry; apply Z.eqb_neq; lia).
  replace (s =? "")%string with false by (symmetry; now apply String.eqb_neq).
  reflexivity.
Qed.

Lemma carries_set_columns now r : carries p (set_columns p now r).
Proof. repeat split. Qed.

Lemma carries_new_row now : carries p (new_row z p now).
Proof. repeat split. Qed.

Lemma existsb_update_where k q now t :
  existsb (has_id z) (update_where k q now t) = existsb (has_id z) t.
Proof.
  unfold update_where. induction t as [|r t IH]; [reflexivity|].
  cbn [map existsb]. rewrite IH. f_equal. now destruct (has_id k r).
Qed.

Lemma ids_update_where k q now t :
  map id (update_where k q now t) = map id t.
Proof.
  unfold update_where. rewrite map_map. apply map_ext.
  intros r. now destruct (has_id k r).
Qed.

Lemma clean_update_where now t : clean z p (update_where z p now t).
Proof.
  intros r Hin Hid. unfold update_where in Hin. apply in_map_iff in Hin.
  destruct Hin as (r0 & <- & _).
  destruct (has_id z r0) eqn:E; [apply carries_set_columns | congruence].
Qed.

Lemma existsb_false_not_in t :
  existsb (has_id z) t = false -> ~ In z (map id t).
Proof.
  intros Hex Hin. apply in_map_iff in Hin. destruct Hin as (r & Hr & Hin).
  assert (existsb (has_id z) t = true); [|congruence].
  apply existsb_exists. exists r. split; [exact Hin|].
  unfold has_id. rewrite Hr. apply Z.eqb_refl.
Qed.

Lemma filter_nil_clean t : filter (has_id z) t = [] -> clean z p t.
Proof.
  intros Hf r Hin Hid.
  assert (In r (filter (has_id z) t)) by (apply filter_In; auto).
  rewrite Hf in H. contradiction.
Qed.

Lemma filter_cons_existsb t r rest :
  filter (has_id z) t = r :: rest -> existsb (has_id z) t = true.
Proof.
  intros Hf. apply existsb_exists. exists r.
  apply filter_In. rewrite Hf. now left.
Qed.

Lemma request_ok_grows t t' r :
  grows z p t t' -> request_ok z payload t r -> request_ok z payload t' r.
Proof.
  intros [He Hc]. destruct r as [body|q [|r0 rest]|res]; cbn [request_ok].
  - auto.
  - intros [-> H]. split; [reflexivity | apply Hc; exact H].
  - intros [-> H]. split; [reflexivity | apply He; exact H].
  - intros (H1 & H2 & H3). split; [apply He; exact H1|].
    split; [apply Hc; exact H2 | exact H3].
Qed.

Lemma advance_invariant now r w :
  NoDup (map id (users w)) -> faults w = [] ->
  request_ok z payload (users w) r ->
  let '(r', w') := advance mode now r w in
  NoDup (map id (users w')) /\ faults w' = [] /\
  request_ok z payload (users w') r' /\ grows z p (users w) (users w').
Proof.
  intros Hnd Hq Hok.
  destruct race_params as (s & Hid & Hz & Hfn & Hmiss & Hdes).
  assert (Hsame : grows z p (users w) (users w)) by (split; auto).
  destruct r as [body|q [|r0 rest]|res]; cbn [request_ok advance] in *.
  - subst body. unfold try_catch, until_select, bindM.
    rewrite Hdes. unfold ret at 1. rewrite Hmiss.
    rewrite (query_quiet _ _ _ Hq), Hid, (execute_select_valid z now _ Hz).
    cbn [fst snd ret users faults].
    destruct (filter (has_id z) (users w)) as [|r0 rest] eqn:Hf;
      cbn [request_ok]; refine (conj Hnd (conj eq_refl (conj _ Hsame)));
      (split; [reflexivity|]).
    + now apply filter_nil_clean.
    + eapply filter_cons_existsb; eauto.
  - destruct Hok as [-> Hclean].
    unfold try_catch, bindM. rewrite after_select_nil. unfold bindM, ret.
    rewrite (query_quiet _ _ _ Hq),
      (execute_insert_valid p z s now _ Hid Hz Hfn).
    destruct (existsb (has_id z) (users w)) eqn:Hex; cbn [fst snd users faults].
    + cbn [request_ok]. refine (conj Hnd (conj eq_refl (conj _ Hsame))).
      refine (conj Hex (conj Hclean _)).
      right; right. unfold findOrCreate_catch. reflexivity.
    + cbn [rows0]. rewrite json_new_row. cbn [request_ok status].
      assert (Hc' : clean z p (users w ++ [new_row z p now])).
      { intros r Hin Hr. apply in_app_or in Hin.
        destruct Hin as [Hin | [<- | []]]; [auto | apply carries_new_row]. }
      assert (He' : existsb (has_id z) (users w ++ [new_row z p now]) = true).
      { rewrite existsb_app. cbn [existsb]. unfold has_id at 2. cbn [id new_row].
        rewrite Z.eqb_refl. now rewrite orb_true_r. }
      refine (conj _ (conj eq_refl (conj (conj He' (conj Hc' _)) (conj _ _))));
        auto.
      rewrite map_app. cbn [map id new_row].
      apply NoDup_app; [exact Hnd | repeat constructor; auto |].
      intros k Hk [<- | []]. now apply existsb_false_not_in in Hk.
  - destruct Hok as [-> Hex].
    unfold try_catch, bindM. rewrite after_select_cons. unfold bindM, ret.
    rewrite (query_quiet _ _ _ Hq),
      (execute_update_valid p z s now _ Hid Hz Hfn).
    cbn [fst snd users faults].
    assert (He' : existsb (has_id z) (update_where z p now (users w)) = true)
      by now rewrite existsb_update_where.
    pose proof (clean_update_where now (users w)) as Hc'.
    assert (Hst : exists r1, rows0 (map (set_columns p now)
                                       (filter (has_id z) (users w)))
                             = row_json (set_columns p now r1)).
    { destruct (filter (has_id z) (users w)) as [|r1 l] eqn:Hf.
      - exfalso. apply existsb_exists in Hex. destruct Hex as (x & Hx1 & Hx2).
        assert (In x (filter (has_id z) (users w))) by (apply filter_In; auto).
        rewrite Hf in H. contradiction.
      - exists r1. reflexivity. }
    destruct Hst as [r1 ->]. rewrite json_set_columns.
    cbn [request_ok status]. rewrite ids_update_where.
    refine (conj Hnd (conj eq_refl (conj (conj He' (conj Hc' _)) (conj _ _))));
      auto.
  - refine (conj Hnd (conj Hq (conj Hok Hsame))).
Qed.

Lemma turn_invariant now i rs w :
  race_invariant z payload rs w ->
  race_invariant z payload (fst (turn mode now i rs w))
                 (snd (turn mode now i rs w)).
Proof.
  unfold race_invariant.
  enough (G : forall rs i w,
    NoDup (map id (users w)) -> faults w = [] ->
    Forall (request_ok z payload (users w)) rs ->
    let '(rs', w') := turn mode now i rs w in
    NoDup (map id (users w')) /\ faults w' = [] /\
    Forall (request_ok z payload (users w')) rs' /\ grows z p (users w) (users w')).
  { intros (H1 & H2 & H3). specialize (G rs i w H1 H2 H3).
    destruct (turn mode now i rs w). cbn [fst snd]. tauto. }
  clear rs i w. induction rs as [|r rest IH]; intros i w Hnd Hq Hall.
  - cbn [turn]. refine (conj Hnd (conj Hq (conj Hall _))). split; auto.
  - inversion Hall as [|? ? Hr Hrest]; subst.
    destruct i as [|j]; cbn [turn].
    + pose proof (advance_invariant now r w Hnd Hq Hr) as A.
      destruct (advance mode now r w) as [r' w'].
      destruct A as (A1 & A2 & A3 & A4).
      refine (conj A1 (conj A2 (conj _ A4))).
      constructor; [exact A3|].
      eapply Forall_impl; [|exact Hrest].
      intros a. now apply request_ok_grows.
    + specialize (IH j w Hnd Hq Hrest).
      destruct (turn mode now j rest w) as [rest' w'].
      destruct IH as (A1 & A2 & A3 & A4).
      refine (conj A1 (conj A2 (conj _ A4))).
      constructor; [|exact A3]. now apply (request_ok_grows (users w)).
Qed.


End Race.


Lemma advance_rank mode now r w :
  (Nat.min 2 (S (rank r)) <= rank (fst (Concurrent.advance mode now r w)))%nat.
Proof.
  destruct r as [body|q rows|res]; cbn [Concurrent.advance rank].
  - unfold try_catch. destruct (Concurrent.until_select now body w) as [[e|r'] w'] eqn:E;
      cbn [fst rank]; [lia|].
    revert E. unfold Concurrent.until_select, bindM.
    destruct (destructure body w) as [[e|q] w0]; [discriminate|].
    destruct (missing_required q); unfold ret.
    + intros [= <- _]. cbn [rank]. lia.
    + destruct (query (SelectById (p_id q)) now w0) as [[e|rows] w1];
        [discriminate|]. intros [= <- _]. cbn [rank]. lia.
  - unfold try_catch, bindM, ret.
    destruct (after_select now q rows w) as [[e|r'] w']; cbn [fst rank]; lia.
  - cbn [fst rank]. lia.
Qed.

Lemma turn_rank mode now i rs w j :
((if Nat.eqb j i then Nat.min 2 (S (rank_at rs j)) else rank_at rs j)
   <= rank_at (fst (Concurrent.turn mode now i rs w)) j)%nat.
Proof.
  revert i j. induction rs as [|r rest IH]; intros i j.
  - cbn [Concurrent.turn fst]. unfold rank_at.
    destruct j; cbn [nth_error]; destruct (Nat.eqb _ i); cbn; lia.
  - destruct i as [|i']; cbn [Concurrent.turn].
    + pose proof (advance_rank mode now r w) as A.
      destruct (Concurrent.advance mode now r w) as [r' w']. cbn [fst] in *.
      unfold rank_at. destruct j as [|j']; cbn [nth_error Nat.eqb]; [exact A|lia].
    + specialize (IH i'). destruct (Concurrent.turn mode now i' rest w) as [rest' w'].
      cbn [fst] in *. unfold rank_at in *.
      destruct j as [|j']; cbn [nth_error Nat.eqb]; [lia | apply IH].
Qed.

Lemma run_rank mode schedule rs w j :
  (Nat.min 2 (rank_at rs j + turns_of j schedule)
   <= rank_at (fst (Concurrent.run mode schedule rs w)) j)%nat.
Proof.
  revert rs w. induction schedule as [|[i now] later IH]; intros rs w.
  - cbn [Concurrent.run fst turns_of filter List.length]. unfold rank_at.
    destruct (nth_error rs j) as [[]|]; cbn [rank]; lia.
  - cbn [Concurrent.run]. pose proof (turn_rank mode now i rs w j) as T.
    destruct (Concurrent.turn mode now i rs w) as [rs' w']. cbn [fst] in T.
    specialize (IH rs' w'). unfold turns_of in *. cbn [filter fst].
    rewrite Nat.eqb_sym. destruct (Nat.eqb j i); cbn [List.length]; lia.
Qed.

Lemma turn_length mode now i rs w :
  List.length (fst (Concurrent.turn mode now i rs w)) = List.length rs.
Proof.
  revert i. induction rs as [|r rest IH]; intros i; [reflexivity|].
  destruct i as [|j]; cbn [Concurrent.turn].
  - destruct (Concurrent.advance mode now r w). reflexivity.
  - specialize (IH j). destruct (Concurrent.turn mode now j rest w).
    cbn [fst List.length] in *. now rewrite IH.
Qed.

Lemma run_length mode schedule rs w :
  List.length (fst (Concurrent.run mode schedule rs w)) = List.length rs.
Proof.
  revert rs w. induction schedule as [|[i now] later IH]; intros rs w;
    [reflexivity|].
  cbn [Concurrent.run]. pose proof (turn_length mode now i rs w) as T.
  destruct (Concurrent.turn mode now i rs w) as [rs' w']. cbn [fst] in T.
  now rewrite IH.
Qed.

Lemma all_responded rs :
  (forall j, (j < List.length rs)%nat -> (2 <= rank_at rs j)%nat) ->
  forallb Concurrent.responded rs = true.
Proof.
  induction rs as [|r rest IH]; intros H; [reflexivity|].
  cbn [forallb]. apply andb_true_iff. split.
  - specialize (H 0%nat). unfold rank_at in H. cbn in H.
    destruct r; cbn in *; try reflexivity; lia.
  - apply IH. intros j Hj. apply (H (S j)). cbn. lia.
Qed.

(** Two turns in a row are the handler run alone. *)
Lemma advance_twice mode now body w :
  let '(r1, w1) := Concurrent.advance mode now (Concurrent.Received body) w in
  Concurrent.advance mode now r1 w1
  = (Concurrent.Responded (fst (findOrCreate mode now body w)),
     snd (findOrCreate mode now body w)).
Proof.
  cbn [Concurrent.advance].
  unfold findOrCreate, try_catch, Concurrent.until_select, findOrCreate_try, bindM.
  destruct (destructure body w) as [[e|q] w0]; [reflexivity|].
  destruct (missing_required q); [reflexivity|].
  destruct (query (SelectById (p_id q)) now w0) as [[e|rows] w1]; [reflexivity|].
  unfold ret at 1. cbn [Concurrent.advance]. unfold try_catch, bindM, ret.
  destruct (after_select now q rows w1) as [[e|res] w2]; reflexivity.
Qed.

Lemma fair_turns n schedule j :
  fair n schedule = true -> (j < n)%nat -> (2 <= turns_of j schedule)%nat.
Proof.
  unfold fair. rewrite forallb_forall. intros H Hj.
  apply Nat.leb_le, H, in_seq. lia.
Qed.

Lemma rank_at_received payload n j :
  (j < n)%nat -> rank_at (repeat (Concurrent.Received payload) n) j = 0%nat.
Proof.
  revert j. induction n as [|n IH]; intros j Hj; [lia|].
  destruct j as [|j]; [reflexivity|]. unfold rank_at in *. cbn [repeat nth_error].
  apply IH. lia.
Qed.




(* ------------------------------------------------------------------ *)
(** ** The bot when the Gateway fails *)

Section Degradation.

Import Bot.

Variable env : environment.

Lemma axios_bound x : snd (axios x) <= timeout.
Proof.
  destruct x as [latency reason|latency st data]; unfold axios;
    destruct (Z.leb_spec timeout latency); cbn [snd]; try lia.
  destruct ((200 <=? st) && (st <? 300)); cbn [snd]; lia.
Qed.

(** One call: it is logged, costs at most the timeout, sends nothing. *)
Lemma request_step c st :
  exists outcome st',
    request env c st = (outcome, st') /\
    calls st' = c :: calls st /\ waited st' <= waited st + timeout /\
    attempted st' = attempted st /\ delivered st' = delivered st /\
    (rejects_all env -> exists msg, outcome = inl msg).
Proof.
  unfold request.
  pose proof (axios_bound (gateway env (List.length (calls st)) c)) as Hb.
  destruct (axios (gateway env (List.length (calls st)) c)) as [outcome ms] eqn:E.
  cbn [snd] in Hb. do 2 eexists. split; [reflexivity|].
  cbn [calls waited attempted delivered]. repeat split; try lia.
  intros Hrej. destruct (Hrej (List.length (calls st)) c) as (msg & ms' & E').
  rewrite E in E'. injection E' as -> _. eauto.
Qed.

Lemma getTranslations_step language st :
  exists outcome st',
    Bot.getTranslations env language st = (outcome, st') /\
    calls st' = GetTranslations language :: calls st /\
    waited st' <= waited st + timeout /\
    attempted st' = attempted st /\ delivered st' = delivered st /\
    (rejects_all env -> exists msg, outcome = inl msg).
Proof.
  destruct (request_step (GetTranslations language) st)
    as (outcome & st' & E & H).
  exists outcome, st'. split; [|exact H].
  unfold Bot.getTranslations, catch, throw. rewrite E. now destruct outcome.
Qed.

Lemma findOrCreateUser_step userData st :
  exists outcome st',
    findOrCreateUser env userData st = (outcome, st') /\
    calls st' = PostFindOrCreate userData :: calls st /\
    waited st' <= waited st + timeout /\
    attempted st' = attempted st /\ delivered st' = delivered st /\
    (rejects_all env -> exists msg, outcome = inl msg).
Proof.
  destruct (request_step (PostFindOrCreate userData) st)
    as (outcome & st' & E & H).
  exists outcome, st'. split; [|exact H].
  unfold findOrCreateUser, catch, throw. rewrite E. now destruct outcome.
Qed.

(** One send: the calls and the time are as before; the text is delivered
    or the send throws. *)
Lemma reply_step text st :
  (reply env text st =
     (inr tt, mk_progress (calls st) (waited st) (text :: attempted st)
                          (text :: delivered st)))
  \/ (exists msg,
       reply env text st =
       (inl msg, mk_progress (calls st) (waited st) (text :: attempted st)
                             (delivered st))).
Proof.
  unfold reply. destruct (telegram env (List.length (attempted st)) text); eauto.
Qed.

Hypothesis fallback_accepted : forall n, telegram env n fallback_message = true.

Lemma reply_fallback st :
  reply env fallback_message st =
  (inr tt, mk_progress (calls st) (waited st) (fallback_message :: attempted st)
                       (fallback_message :: delivered st)).
Proof. unfold reply. now rewrite fallback_accepted. Qed.

(** [handleBotError] makes one call, never throws, and delivers one
    message: the text of the "en" bundle, or the built-in one when that
    text is not to be had or Telegram refuses it. *)
Lemma handleBotError_step error st :
  exists st' text,
    handleBotError env error st = (inr tt, st') /\
    calls st' = GetTranslations (JStr "en") :: calls st /\
    waited st' <= waited st + timeout /\
    delivered st' = text :: delivered st /\
    (text = error_text env (List.length (calls st)) \/ text = fallback_message) /\
    (rejects_all env -> text = fallback_message).
Proof.
  unfold handleBotError, catch, bindM, Bot.getTranslations, catch, request, throw.
  unfold error_text.
  pose proof (axios_bound (gateway env (List.length (calls st))
                                   (GetTranslations (JStr "en")))) as Hb.
  assert (Hrej : rejects_all env ->
                 exists msg ms, axios (gateway env (List.length (calls st))
                                         (GetTranslations (JStr "en")))
                                = (inl msg, ms)) by (intros Hr; apply Hr).
  destruct (axios (gateway env (List.length (calls st))
                           (GetTranslations (JStr "en"))))
    as [[msg|translations] ms]; cbn [snd] in Hb.
  - rewrite reply_fallback. do 2 eexists. split; [reflexivity|].
    cbn [calls waited delivered]. repeat split; auto; lia.
  - assert (Hno : rejects_all env -> False).
    { intros Hr. destruct (Hrej Hr) as (? & ? & ?). discriminate. }
    unfold get. destruct (member translations "error_generic") as [v|];
      unfold ret, throw.
    + match goal with
      | |- context [reply env ?t ?s] =>
          destruct (reply_step t s) as [R | [m R]]; rewrite R
      end.
      * do 2 eexists. split; [reflexivity|].
        cbn [calls waited delivered]. repeat split; auto; try lia.
        intros Hr. destruct (Hno Hr).
      * rewrite reply_fallback. do 2 eexists. split; [reflexivity|].
        cbn [calls waited delivered]. repeat split; auto; lia.
    + rewrite reply_fallback. do 2 eexists. split; [reflexivity|].
      cbn [calls waited delivered]. repeat split; auto; lia.
Qed.

(** Which message that is, and what was handed to Telegram: the text of
    the "en" bundle when Telegram takes it; otherwise the built-in one,
    after the bundle's text when Telegram refused that. *)
Lemma handleBotError_attempts error st :
  exists st',
    handleBotError env error st = (inr tt, st') /\
    calls st' = GetTranslations (JStr "en") :: calls st /\
    (attempted st'
     = error_reply env (List.length (calls st)) (List.length (attempted st))
       :: attempted st \/
     attempted st'
     = fallback_message :: error_text env (List.length (calls st))
       :: attempted st) /\
    delivered st'
    = error_reply env (List.length (calls st)) (List.length (attempted st))
      :: delivered st.
Proof.
  unfold handleBotError, catch, bindM, Bot.getTranslations, catch, request, throw.
  unfold error_reply, error_text.
  destruct (axios (gateway env (List.length (calls st))
                           (GetTranslations (JStr "en"))))
    as [[msg|translations] ms].
  - rewrite reply_fallback. eexists. split; [reflexivity|].
    cbn [calls attempted delivered]. split; [reflexivity|].
    destruct (telegram env _ fallback_message); auto.
  - unfold get. destruct (member translations "error_generic") as [v|];
      unfold ret, throw.
    + unfold reply at 1. cbn [attempted].
      destruct (telegram env (List.length (attempted st))
                         (or_else v fallback_message)).
      * eexists. split; [reflexivity|]. cbn [calls attempted delivered]. auto.
      * rewrite reply_fallback. eexists. split; [reflexivity|].
        cbn [calls attempted delivered]. auto.
    + rewrite reply_fallback. eexists. split; [reflexivity|].
      cbn [calls attempted delivered]. split; [reflexivity|].
      destruct (telegram env _ fallback_message); auto.
Qed.

(** The [try] block of [/start]: at most two calls; it ends having
    delivered one message, or throws having delivered none, which is what
    happens when the Gateway rejects every call. *)
Lemma start_try_step user st :
  exists outcome st',
    start_try env user st = (outcome, st') /\
    (List.length (calls st') <= List.length (calls st) + 2)%nat /\
    waited st' <= waited st + 2 * timeout /\
    match outcome with
    | inr _ => exists text, delivered st' = text :: delivered st
    | inl _ => delivered st' = delivered st
    end /\
    (rejects_all env -> exists msg, outcome = inl msg).
Proof.
  unfold start_try, bindM, get.
  pose proof (Z.le_refl timeout) as Ht0. unfold timeout in Ht0 at 1.
  assert (0 <= timeout) by (unfold timeout; lia).
  destruct (member user "id") as [v|]; unfold ret, throw.
  2:{ do 2 eexists. split; [reflexivity|]. repeat split; eauto; lia. }
  destruct (findOrCreateUser_step user st)
    as (o1 & st1 & E1 & Hc1 & Hw1 & Ha1 & Hd1 & Hrej1).
  rewrite E1. destruct o1 as [msg|userRecord].
  { do 2 eexists. split; [reflexivity|]. rewrite Hc1, Hd1. cbn [List.length].
    repeat split; eauto; lia. }
  assert (Hno : rejects_all env -> exists msg : string, False).
  { intros Hr. destruct (Hrej1 Hr) as [? ?]. discriminate. }
  destruct (member userRecord "preferred_language") as [pl|].
  2:{ do 2 eexists. split; [reflexivity|]. rewrite Hc1, Hd1. cbn [List.length].
      repeat split; try lia. intros Hr. destruct (Hno Hr) as [_ []]. }
  destruct (getTranslations_step (or_else pl (JStr "en")) st1)
    as (o2 & st2 & E2 & Hc2 & Hw2 & Ha2 & Hd2 & Hrej2).
  rewrite E2. destruct o2 as [msg|translations].
  { do 2 eexists. split; [reflexivity|]. rewrite Hc2, Hc1, Hd2, Hd1.
    cbn [List.length]. repeat split; eauto; lia. }
  destruct (member translations "welcome_message") as [wm|].
  2:{ do 2 eexists. split; [reflexivity|]. rewrite Hc2, Hc1, Hd2, Hd1.
      cbn [List.length]. repeat split; try lia.
      intros Hr. destruct (Hno Hr) as [_ []]. }
  destruct (reply_step wm st2) as [R | [m R]]; rewrite R;
    do 2 eexists; (split; [reflexivity|]);
    cbn [calls waited delivered]; rewrite Hc2, Hc1, Hd2, Hd1;
    cbn [List.length]; repeat split; eauto; try lia;
    intros Hr; destruct (Hno Hr) as [_ []].
Qed.

End Degradation.

(** A [try] block that throws at [st1] hands over to [handleBotError]:
    one more call, for the "en" bundle, and the one message it delivers. *)
Lemma caught_reply env (m : Bot.B unit) st error st1 :
  (forall n, Bot.telegram env n Bot.fallback_message = true) ->
  m st = (inl error, st1) ->
  let run := catch m (fun e => Bot.handleBotError env e) st in
  fst run = inr tt /\
  Bot.calls (snd run) = Bot.GetTranslations (JStr "en") :: Bot.calls st1 /\
  Bot.delivered (snd run)
  = error_reply env (List.length (Bot.calls st1))
                    (List.length (Bot.attempted st1))
    :: Bot.delivered st1.
Proof.
  intros Hacc E run. subst run. unfold catch. rewrite E.
  destruct (handleBotError_attempts env Hacc error st1)
    as (st' & -> & Hc & _ & Hd).
  cbn [fst snd]. auto.
Qed.

Lemma start_post_rejected env fields msg ms :
  Bot.axios (Bot.gateway env 0 (Bot.PostFindOrCreate (JObj fields)))
  = (inl msg, ms) ->
  Bot.start_try env (JObj fields) Bot.idle
  = (inl msg, Bot.mk_progress [Bot.PostFindOrCreate (JObj fields)] (0 + ms) [] []).
Proof.
  intros E. unfold Bot.start_try, bindM, Bot.get.
  cbn [member]. unfold ret.
  unfold Bot.findOrCreateUser, catch, Bot.request, throw.
  cbn [Bot.calls Bot.idle List.length]. rewrite E. reflexivity.
Qed.

Lemma start_bundle_rejected env fields userRecord ms1 preference msg ms2 :
  Bot.axios (Bot.gateway env 0 (Bot.PostFindOrCreate (JObj fields)))
  = (inr userRecord, ms1) ->
  member userRecord "preferred_language" = Some preference ->
  Bot.axios (Bot.gateway env 1
               (Bot.GetTranslations (or_else preference (JStr "en"))))
  = (inl msg, ms2) ->
  Bot.start_try env (JObj fields) Bot.idle
  = (inl msg,
     Bot.mk_progress
       [Bot.GetTranslations (or_else preference (JStr "en"));
        Bot.PostFindOrCreate (JObj fields)]
       (0 + ms1 + ms2) [] []).
Proof.
  intros E1 Hp E2. unfold Bot.start_try, bindM, Bot.get.
  cbn [member]. unfold ret at 1.
  unfold Bot.findOrCreateUser, Bot.getTranslations, catch, Bot.request, throw.
  cbn [Bot.calls Bot.idle List.length]. rewrite E1, Hp. unfold ret at 1.
  cbn [Bot.calls Bot.waited Bot.attempted Bot.delivered List.length].
  rewrite E2. reflexivity.
Qed.

Lemma error_reply_served env n k translations ms v :
  Bot.axios (Bot.gateway env n (Bot.GetTranslations (JStr "en")))
  = (inr translations, ms) ->
  member translations "error_generic" = Some v -> truthy v = true ->
  Bot.telegram env k v = true ->
  error_reply env n k = v.
Proof.
  intros E Hm Hv Ht. unfold error_reply, error_text, or_else.
  rewrite E, Hm, Hv, Ht. reflexivity.
Qed.

Lemma error_reply_built_in env n k :
  (exists msg ms,
     Bot.axios (Bot.gateway env n (Bot.GetTranslations (JStr "en")))
     = (inl msg, ms)) \/
  (exists translations ms,
     Bot.axios (Bot.gateway env n (Bot.GetTranslations (JStr "en")))
     = (inr translations, ms) /\
     match member translations "error_generic" with
     | Some v => truthy v = false \/ Bot.telegram env k v = false
     | None => True
     end) ->
  error_reply env n k = Bot.fallback_message.
Proof.
  unfold error_reply, error_text, or_else.
  intros [(msg & ms & ->) | (translations & ms & -> & H)].
  - now destruct (Bot.telegram env k Bot.fallback_message).
  - destruct (member translations "error_generic") as [v|].
    + destruct (truthy v) eqn:Tv.
      * destruct H as [[=] | ->]. reflexivity.
      * now destruct (Bot.telegram env k Bot.fallback_message).
    + now destruct (Bot.telegram env k Bot.fallback_message).
Qed.

(** C8, as the spec words it, fails: the upsert is answered 503, a
    failure of a Gateway call, and what the user gets is not the message
    built into the bot but a text the Gateway served. *)
Lemma reply_taken_from_gateway :
  let env :=
    Bot.mk_environment
      (fun _ c =>
         match c with
         | Bot.PostFindOrCreate _ =>
             Bot.Answer 40 503
               (JObj [("error", JStr "Database connection failed");
                      ("message", JStr "Unable to connect to the database")])
         | Bot.GetTranslations _ =>
             Bot.Answer 30 200
               (JObj [("welcome_message", JStr "Welcome to Giftunity!");
                      ("error_generic", JStr "Something went wrong.")])
         | Bot.GetSupportedLanguages => Bot.NoResponse 0 "unused"
         end)
      (fun _ _ => true) in
  let run :=
    Bot.start env (JObj [("id", JNum 42); ("first_name", JStr "Ana")]) Bot.idle in
  fst run = inr tt /\
  Bot.delivered (snd run) = [JStr "Something went wrong."] /\
  Bot.delivered (snd run) <> [Bot.fallback_message].
Proof. vm_compute. repeat split. discriminate. Qed.

(** C8, amended. Provided Telegram accepts the built-in message, [/start]
    ends without throwing whatever the Gateway does, after at most three
    calls of at most 5000 ms each, and has delivered exactly one message,
    the built-in one when the Gateway rejects every call.  When the upsert
    fails, or the upsert is answered and the request for the bundle fails,
    the bot asks once more, for the "en" bundle, and the message is that
    bundle's [error_generic] if the bundle is served, has such a text and
    Telegram takes it, and the built-in message in every other case. *)
Theorem start_degrades env fields :
  (forall n, Bot.telegram env n Bot.fallback_message = true) ->
  let user := JObj fields in
  let run := Bot.start env user Bot.idle in
  let en := Bot.GetTranslations (JStr "en") in
  (fst run = inr tt /\
   (List.length (Bot.calls (snd run)) <= 3)%nat /\
   Bot.waited (snd run) <= 3 * Bot.timeout /\
   (exists text, Bot.delivered (snd run) = [text]) /\
   (Bot.rejects_all env -> Bot.delivered (snd run) = [Bot.fallback_message])) /\
  ((exists msg ms,
      Bot.axios (Bot.gateway env 0 (Bot.PostFindOrCreate user)) = (inl msg, ms)) ->
   Bot.calls (snd run) = [en; Bot.PostFindOrCreate user] /\
   Bot.delivered (snd run) = [error_reply env 1 0]) /\
  (forall userRecord ms1 preference,
     Bot.axios (Bot.gateway env 0 (Bot.PostFindOrCreate user))
     = (inr userRecord, ms1) ->
     member userRecord "preferred_language" = Some preference ->
     let bundle := Bot.GetTranslations (or_else preference (JStr "en")) in
     (exists msg ms2, Bot.axios (Bot.gateway env 1 bundle) = (inl msg, ms2)) ->
     Bot.calls (snd run) = [en; bundle; Bot.PostFindOrCreate user] /\
     Bot.delivered (snd run) = [error_reply env 2 0]) /\
  (forall n k translations ms error_generic,
     Bot.axios (Bot.gateway env n en) = (inr translations, ms) ->
     member translations "error_generic" = Some error_generic ->
     truthy error_generic = true ->
     Bot.telegram env k error_generic = true ->
     error_reply env n k = error_generic) /\
  (forall n k,
     (exists msg ms, Bot.axios (Bot.gateway env n en) = (inl msg, ms)) \/
     (exists translations ms,
        Bot.axios (Bot.gateway env n en) = (inr translations, ms) /\
        match member translations "error_generic" with
        | Some error_generic =>
            truthy error_generic = false \/
            Bot.telegram env k error_generic = false
        | None => True
        end) ->
     error_reply env n k = Bot.fallback_message).
Proof.
  intros Hacc user run en.
  split; [|split; [|split; [|split]]].
  - subst run. unfold Bot.start, catch in *.
    destruct (start_try_step env user Bot.idle)
      as (outcome & st1 & E & Hc & Hw & Hd & Hrej).
    rewrite E in *.
    cbn [Bot.calls Bot.waited Bot.delivered Bot.idle List.length] in *.
    destruct outcome as [error|[]].
    + destruct (handleBotError_step env Hacc error st1)
        as (st2 & text & E2 & Hc2 & Hw2 & Hd2 & _ & Hfb).
      rewrite E2 in *.
      refine (conj eq_refl (conj _ (conj _ (conj _ _)))); cbn [fst snd].
      * rewrite Hc2. cbn [List.length]. lia.
      * unfold Bot.timeout in *. lia.
      * rewrite Hd2, Hd. eauto.
      * intros Hr. now rewrite Hd2, Hd, (Hfb Hr).
    + destruct Hd as [text Hd].
      refine (conj eq_refl (conj _ (conj _ (conj _ _)))); cbn [fst snd].
      * lia.
      * unfold Bot.timeout in *. lia.
      * rewrite Hd. eauto.
      * intros Hr. destruct (Hrej Hr) as [? ?]. discriminate.
  - intros (msg & ms & E).
    destruct (caught_reply env (Bot.start_try env user) Bot.idle msg _ Hacc
                (start_post_rejected env fields msg ms E)) as (_ & Hc & Hd).
    split; [exact Hc | exact Hd].
  - intros userRecord ms1 preference E1 Hp bundle (msg & ms2 & E2).
    destruct (caught_reply env (Bot.start_try env user) Bot.idle msg _ Hacc
                (start_bundle_rejected env fields userRecord ms1 preference
                   msg ms2 E1 Hp E2)) as (_ & Hc & Hd).
    split; [exact Hc | exact Hd].
  - intros n k translations ms error_generic.
    apply error_reply_served.
  - intros n k. apply error_reply_built_in.
Qed.

Lemma start_degrades_witness :
  let env :=
    Bot.mk_environment
      (fun n _ =>
         match n with
         | O => Bot.Answer 20 200 (JObj [("preferred_language", JStr "fr")])
         | S O => Bot.Answer 25 404 (JObj [("error", JStr "Language not supported")])
         | _ => Bot.Answer 30 200 (JObj [("error_generic", JStr "Something went wrong.")])
         end)
      (fun _ _ => true) in
  let user := JObj [("id", JNum 42); ("first_name", JStr "Ana")] in
  let run := Bot.start env user Bot.idle in
  fst run = inr tt /\
  Bot.calls (snd run)
  = [Bot.GetTranslations (JStr "en"); Bot.GetTranslations (JStr "fr");
     Bot.PostFindOrCreate user] /\
  Bot.delivered (snd run) = [error_reply env 2 0] /\
  error_reply env 2 0 = JStr "Something went wrong.".
Proof.
  intros env user.
  pose proof (start_degrades env [("id", JNum 42); ("first_name", JStr "Ana")]
                (fun _ => eq_refl)) as H.
  cbv zeta in H. fold user in H.
  destruct H as ((H1 & _) & _ & H3 & H4 & _).
  destruct (H3 (JObj [("preferred_language", JStr "fr")]) 20 (JStr "fr")
              eq_refl eq_refl
              (ex_intro _ "Request failed with status code"
                 (ex_intro _ 25 eq_refl))) as [Hc Hd].
  refine (conj H1 (conj Hc (conj Hd _))).
  exact (H4 2%nat 0%nat (JObj [("error_generic", JStr "Something went wrong.")])
            30 (JStr "Something went wrong.") eq_refl eq_refl eq_refl eq_refl).
Defined.

(* ================================================================== *)
(** * Further properties *)

(** ** The user endpoint: what a request can do to the table *)

Lemma execute_select_same v now t : snd (execute (SelectById v) now t) = t.
Proof. cbn [execute]. destruct (bind_id v) as [e|[k|]]; reflexivity. Qed.

Lemma status_bad_request : status bad_request = 400.
Proof. reflexivity. Qed.

Lemma status_catch_not_success mode e :
  status (findOrCreate_catch mode e) <> 200 /\
  status (findOrCreate_catch mode e) <> 201 /\
  (status (findOrCreate_catch mode e) = 500 \/
   status (findOrCreate_catch mode e) = 503).
Proof.
  destruct (status_catch mode e) as [-> | ->]; repeat split;
    try discriminate; auto.
Qed.

Lemma execute_error s now t e t' : execute s now t = (inl e, t') -> t' = t.
Proof.
  destruct s as [v|p|p]; cbn [execute];
    repeat match goal with
           | |- context [match ?x with _ => _ end] => destruct x
           end;
    intros H; inversion H; reflexivity.
Qed.

(** A query throws and leaves the table as it was, or returns what the
    engine makes of the statement. *)
Lemma query_outcome s now w :
  exists w',
    (exists e, query s now w = (inl e, w') /\ users w' = users w) \/
    (exists rows, query s now w = (inr rows, w') /\
                  execute s now (users w) = (inr rows, users w')).
Proof.
  unfold query.
  destruct (faults w) as [|[e|] rest];
    try (eexists; left; eexists; split; reflexivity);
    destruct (execute s now (users w)) as [[e|rows] t'] eqn:E;
    eexists;
    try (left; eexists; split; [reflexivity|]; cbn [users];
         now apply execute_error in E);
    right; eexists; split; reflexivity.
Qed.

Lemma execute_select_inv v now t rows t' :
  execute (SelectById v) now t = (inr rows, t') ->
  t' = t /\
  ((bind_id v = inr None /\ rows = []) \/
   (exists k, bind_id v = inr (Some k) /\ rows = filter (has_id k) t)).
Proof.
  cbn [execute]. destruct (bind_id v) as [e|[k|]]; [discriminate| |];
    intros [= <- <-]; split; eauto.
Qed.

Lemma execute_insert_inv p now t rows t' :
  execute (InsertUser p) now t = (inr rows, t') ->
  exists k, bind_id (p_id p) = inr (Some k) /\
            existsb (has_id k) t = false /\
            rows = [new_row k p now] /\ t' = t ++ [new_row k p now].
Proof.
  cbn [execute]. destruct (bind_id (p_id p)) as [e|[k|]]; try discriminate.
  destruct (is_null (bind (p_first_name p))); [discriminate|].
  destruct (existsb (has_id k) t) eqn:E; [discriminate|].
  intros [= <- <-]. eauto.
Qed.

Lemma execute_update_inv p now t rows t' k :
  bind_id (p_id p) = inr (Some k) ->
  execute (UpdateUser p) now t = (inr rows, t') ->
  rows = filter (has_id k) (update_where k p now t) /\
  t' = update_where k p now t.
Proof.
  intros Hb. cbn [execute]. rewrite Hb.
  destruct (is_null (bind (p_first_name p)) && existsb (has_id k) t);
    [discriminate|]. now intros [= <- <-].
Qed.

Lemma filter_nil_existsb {A} (f : A -> bool) l :
  filter f l = [] -> existsb f l = false.
Proof.
  induction l as [|a l IH]; cbn [filter existsb]; [reflexivity|].
  destruct (f a); [discriminate | exact IH].
Qed.

Lemma filter_existsb {A} (f : A -> bool) l a rest :
  filter f l = a :: rest -> existsb f l = true.
Proof.
  intros Hf. apply existsb_exists. exists a. apply filter_In.
  rewrite Hf. now left.
Qed.

(** The handler has one of three effects: none, with an answer that is
    neither 200 nor 201; the [UPDATE] of the rows of its key, answered 200;
    the [INSERT] of a row of a key the table lacked, answered 201. *)
Lemma findOrCreate_effect mode now body w :
  let run := findOrCreate mode now body w in
  let p := params_of body in
  (users (snd run) = users w /\
   (status (fst run) = 400 \/ status (fst run) = 500 \/ status (fst run) = 503))
  \/ (exists k, bind_id (prop body "id") = inr (Some k) /\
        existsb (has_id k) (users w) = true /\
        status (fst run) = 200 /\
        users (snd run) = update_where k p now (users w))
  \/ (exists k, bind_id (prop body "id") = inr (Some k) /\
        existsb (has_id k) (users w) = false /\
        status (fst run) = 201 /\
        users (snd run) = users w ++ [new_row k p now]).
Proof.
  intros run p. subst run.
  unfold findOrCreate, try_catch, findOrCreate_try, bindM.
  assert (Hd : destructure body w = (inr p, w) \/
               exists e, destructure body w = (inl e, w)).
  { unfold destructure, ret, throw. destruct body; eauto. }
  assert (Hfail : forall e w', users w' = users w ->
            users (snd (findOrCreate_catch mode e, w')) = users w /\
            (status (fst (findOrCreate_catch mode e, w')) = 400 \/
             status (fst (findOrCreate_catch mode e, w')) = 500 \/
             status (fst (findOrCreate_catch mode e, w')) = 503)).
  { intros e w' Hw. cbn [fst snd]. split; [exact Hw|].
    destruct (status_catch mode e) as [-> | ->]; auto. }
  destruct Hd as [-> | [e ->]]; [|left; now apply Hfail].
  destruct (missing_required p); [left; cbn; auto|].
  change (p_id p) with (prop body "id").
  destruct (query_outcome (SelectById (prop body "id")) now w)
    as (w1 & [(e & -> & Hw1) | (rows & -> & Hsel)]);
    [left; now apply Hfail|].
  apply execute_select_inv in Hsel. destruct Hsel as [Hw1 Hsel].
  destruct rows as [|r0 rows].
  - rewrite after_select_nil. unfold bindM, ret.
    destruct (query_outcome (InsertUser p) now w1)
      as (w2 & [(e & -> & Hw2) | (rows' & -> & Hins)]);
      [left; apply Hfail; congruence|].
    apply execute_insert_inv in Hins.
    destruct Hins as (k & Hk & Hex & -> & Hw2).
    right; right. exists k. cbn [fst snd rows0]. rewrite status_json.
    rewrite Hw1 in *. auto.
  - rewrite after_select_cons. unfold bindM, ret.
    destruct (query_outcome (UpdateUser p) now w1)
      as (w2 & [(e & -> & Hw2) | (rows' & -> & Hupd)]);
      [left; apply Hfail; congruence|].
    destruct Hsel as [[_ [=]] | (k & Hk & Hrows)].
    apply (execute_update_inv p now _ _ _ k Hk) in Hupd.
    destruct Hupd as [-> Hw2].
    right; left. exists k. cbn [fst snd]. rewrite status_json.
    rewrite Hw1 in *. symmetry in Hrows. apply filter_existsb in Hrows. auto.
Qed.

Lemma filter_other_update_where k k' p now t :
  k <> k' ->
  filter (has_id k) (update_where k' p now t) = filter (has_id k) t.
Proof.
  intros Hne. unfold update_where.
  induction t as [|r t IH]; [reflexivity|]. cbn [map filter].
  destruct (has_id k' r) eqn:E'.
  - assert (Hr : has_id k r = false).
    { unfold has_id in *. apply Z.eqb_eq in E'. apply Z.eqb_neq. lia. }
    unfold has_id at 1. cbn [id set_columns]. fold (has_id k r).
    rewrite Hr. exact IH.
  - destruct (has_id k r); [f_equal|]; exact IH.
Qed.



(** X2. A request for the identity [z], a safe integer, touches no row
    of another key, whatever else its body holds and whatever the engine
    throws: for every key [k] other than [z] the rows of key [k] are
    afterwards what they were, in content and order. *)
Theorem other_rows_untouched mode now body w z k :
  prop body "id" = JNum z -> isSafeInteger z = true -> k <> z ->
  filter (has_id k) (users (snd (findOrCreate mode now body w)))
  = filter (has_id k) (users w).
Proof.
  intros Hid Hsafe Hother.
  pose proof (bind_id_safe z Hsafe) as Hb.
  destruct (findOrCreate_effect mode now body w)
    as [[Hu _] | [(k' & Hk' & _ & _ & Hu) | (k' & Hk' & _ & _ & Hu)]];
    rewrite Hu; [reflexivity | |];
    rewrite Hid, Hb in Hk'; injection Hk' as <-.
  - now apply filter_other_update_where.
  - rewrite filter_app. cbn [filter]. unfold has_id at 2. cbn [id new_row].
    destruct (z =? k) eqn:E.
    + apply Z.eqb_eq in E. now elim Hother.
    + apply app_nil_r.
Qed.

Lemma other_rows_untouched_witness :
  let bob :=
    mk_row 7 JNull (JStr "Bob") JNull JNull JNull JNull JNull JNull JNull
           JNull (Some "de") 1 2 in
  let ana :=
    mk_row 42 JNull (JStr "Ana") JNull JNull JNull JNull JNull JNull JNull
           JNull (Some "en") 3 5 in
  filter (has_id 7)
    (users (snd (findOrCreate None 9
                   (JObj [("id", JNum 42); ("first_name", JStr "Anna");
                          ("is_premium", JStr "yes")])
                   (mk_world [bob; ana] [] []))))
  = [bob].
Proof.
  intros bob ana.
  apply (other_rows_untouched None 9
           (JObj [("id", JNum 42); ("first_name", JStr "Anna");
                  ("is_premium", JStr "yes")])
           (mk_world [bob; ana] [] []) 42 7).
  - reflexivity.
  - reflexivity.
  - discriminate.
Defined.

(** X3. The primary key survives every request: if no two rows share an
    [id] before, none do after, whatever the body and the faults; and so
    after any sequence of requests. *)
Theorem primary_key_kept reqs w :
  NoDup (map id (users w)) -> NoDup (map id (users (serve_all reqs w))).
Proof.
  revert w. induction reqs as [|[[mode now] body] later IH]; intros w Hnd;
    [exact Hnd|].
  cbn [serve_all]. apply IH.
  destruct (findOrCreate_effect mode now body w)
    as [[Hu _] | [(k & _ & _ & _ & Hu) | (k & _ & Hex & _ & Hu)]];
    rewrite Hu.
  - exact Hnd.
  - now rewrite ids_update_where.
  - rewrite map_app. cbn [map id new_row].
    apply NoDup_app; [exact Hnd | repeat constructor; auto |].
    intros x Hx [<- | []]. now apply existsb_false_not_in in Hx.
Qed.

Lemma primary_key_kept_witness :
  NoDup (map id (users (serve_all
    [(None, 1, JObj [("id", JNum 42); ("first_name", JStr "Ana")]);
     (None, 2, JObj [("id", JNum 42); ("first_name", JStr "Anna")]);
     (None, 3, JObj [("id", JNum 7); ("first_name", JStr "Bob")])]
    (mk_world [] [] [])))).
Proof.
  apply (primary_key_kept
    [(None, 1, JObj [("id", JNum 42); ("first_name", JStr "Ana")]);
     (None, 2, JObj [("id", JNum 42); ("first_name", JStr "Anna")]);
     (None, 3, JObj [("id", JNum 7); ("first_name", JStr "Bob")])]
    (mk_world [] [] [])).
  constructor.
Defined.


(* ------------------------------------------------------------------ *)
(** ** The user endpoint: more on concurrent requests *)

(** A turn changes one request of the list, by [advance], or none. *)
Lemma turn_split mode now i rs w :
  (fst (Concurrent.turn mode now i rs w) = rs /\
   snd (Concurrent.turn mode now i rs w) = w) \/
  exists pre r post,
    rs = pre ++ r :: post /\
    Concurrent.turn mode now i rs w
    = (pre ++ fst (Concurrent.advance mode now r w) :: post,
       snd (Concurrent.advance mode now r w)).
Proof.
  revert i. induction rs as [|r rest IH]; intros i; [left; now split|].
  destruct i as [|j]; cbn [Concurrent.turn].
  - right. exists [], r, rest. split; [reflexivity|].
    destruct (Concurrent.advance mode now r w); reflexivity.
  - destruct (IH j) as [[H1 H2] | (pre & q & post & -> & E)].
    + left. destruct (Concurrent.turn mode now j rest w); cbn [fst snd] in *.
      now subst.
    + right. exists (r :: pre), q, post. split; [reflexivity|].
      rewrite E. reflexivity.
Qed.

Section Settled.

Variables (mode : option string) (payload : jsval) (z : Z).
Hypothesis Hvalid : valid_payload payload z = true.

Lemma advance_update_only now r w r' w' :
  Concurrent.advance mode now r w = (r', w') ->
  existsb (has_id z) (users w) = true -> faults w = [] ->
  update_only payload r ->
  existsb (has_id z) (users w') = true /\ faults w' = [] /\
  update_only payload r'.
Proof.
  intros E Hex Hq Hok. revert E.
  destruct (race_params payload z Hvalid) as (s & Hid & Hz & Hfn & Hmiss & Hdes).
  destruct r as [body|q [|r0 rest]|res]; cbn [update_only Concurrent.advance] in *.
  - subst body. unfold try_catch, Concurrent.until_select, bindM.
    rewrite Hdes. unfold ret at 1. rewrite Hmiss.
    rewrite (query_quiet _ _ _ Hq), Hid, (execute_select_valid z now _ Hz).
    cbn [fst snd ret users faults].
    destruct (filter (has_id z) (users w)) as [|r0 rest] eqn:Hf.
    + apply filter_nil_existsb in Hf. congruence.
    + intros [= <- <-]. cbn [update_only users faults]. auto.
  - contradiction.
  - subst q. unfold try_catch, bindM. rewrite after_select_cons.
    unfold bindM, ret.
    rewrite (query_quiet _ _ _ Hq),
      (execute_update_valid _ z s now _ Hid Hz Hfn).
    cbn [fst snd]. intros [= <- <-]. cbn [users faults update_only].
    rewrite existsb_update_where, status_json. auto.
  - intros [= <- <-]. auto.
Qed.

Lemma run_update_only schedule rs w :
  existsb (has_id z) (users w) = true -> faults w = [] ->
  Forall (update_only payload) rs ->
  Forall (update_only payload) (fst (Concurrent.run mode schedule rs w)).
Proof.
  revert rs w. induction schedule as [|[i now] later IH]; intros rs w Hex Hq Hall;
    [exact Hall|].
  cbn [Concurrent.run].
  destruct (turn_split mode now i rs w) as [[H1 H2] | (pre & r & post & -> & E)].
  - destruct (Concurrent.turn mode now i rs w) as [rs' w']. cbn [fst snd] in *.
    subst. now apply IH.
  - rewrite E. apply Forall_app in Hall. destruct Hall as [Hpre Hrest].
    inversion Hrest as [|? ? Hr Hpost]; subst.
    destruct (Concurrent.advance mode now r w) as [r' w'] eqn:Ea.
    destruct (advance_update_only now r w r' w' Ea Hex Hq Hr) as (Hex' & Hq' & Hr').
    cbn [fst snd]. apply IH; auto.
    apply Forall_app. split; [exact Hpre|]. now constructor.
Qed.

(** When a request becomes one answered 201, the table lacked the key
    before its turn. *)
Lemma advance_created_fresh now r w r' w' :
  Concurrent.advance mode now r w = (r', w') ->
  faults w = [] -> request_ok z payload (users w) r ->
  created r = false -> created r' = true ->
  existsb (has_id z) (users w) = false.
Proof.
  intros E Hq Hok Hnot. revert E.
  destruct (race_params payload z Hvalid) as (s & Hid & Hz & Hfn & Hmiss & Hdes).
  destruct r as [body|q [|r0 rest]|res]; cbn [request_ok Concurrent.advance] in *.
  - subst body. unfold try_catch, Concurrent.until_select, bindM.
    rewrite Hdes. unfold ret at 1. rewrite Hmiss.
    rewrite (query_quiet _ _ _ Hq), Hid, (execute_select_valid z now _ Hz).
    cbn [fst snd ret]. intros [= <- <-]. discriminate.
  - destruct Hok as [-> _]. unfold try_catch, bindM. rewrite after_select_nil.
    unfold bindM, ret.
    rewrite (query_quiet _ _ _ Hq),
      (execute_insert_valid _ z s now _ Hid Hz Hfn).
    destruct (existsb (has_id z) (users w)); [|reflexivity].
    cbn [fst snd]. intros [= <- <-]. cbn [created]. intros H.
    apply Z.eqb_eq in H.
    destruct (status_catch_not_success mode unique_violation) as (_ & H1 & _).
    contradiction.
  - destruct Hok as [-> _]. unfold try_catch, bindM. rewrite after_select_cons.
    unfold bindM, ret.
    rewrite (query_quiet _ _ _ Hq),
      (execute_update_valid _ z s now _ Hid Hz Hfn).
    cbn [fst snd]. intros [= <- <-]. cbn [created]. rewrite status_json.
    discriminate.
  - intros [= <- <-]. congruence.
Qed.

Lemma run_created schedule rs w :
  race_invariant z payload rs w ->
  (List.length (filter created rs) <= 1)%nat ->
  (List.length (filter created rs) = 1%nat ->
   existsb (has_id z) (users w) = true) ->
  (List.length (filter created (fst (Concurrent.run mode schedule rs w))) <= 1)%nat.
Proof.
  revert rs w. induction schedule as [|[i now] later IH]; intros rs w Hinv Hle Hone;
    [exact Hle|].
  cbn [Concurrent.run].
  pose proof (turn_invariant mode payload z Hvalid now i rs w Hinv) as Hinv'.
  destruct (turn_split mode now i rs w) as [[H1 H2] | (pre & r & post & -> & E)].
  - destruct (Concurrent.turn mode now i rs w) as [rs' w']. cbn [fst snd] in *.
    subst. now apply IH.
  - rewrite E in *. cbn [fst snd] in Hinv'.
    destruct Hinv as (Hnd & Hq & Hall).
    assert (Hr : request_ok z payload (users w) r).
    { apply Forall_app in Hall. destruct Hall as [_ Hrest].
      now inversion Hrest. }
    pose proof (advance_invariant mode payload z Hvalid now r w Hnd Hq Hr) as A.
    destruct (Concurrent.advance mode now r w) as [r' w'] eqn:Ea.
    pose proof (advance_created_fresh now r w r' w' Ea Hq Hr) as F.
    cbn [fst snd] in *. destruct A as (_ & _ & Hr' & [Hgrow _]).
    rewrite filter_app in Hle, Hone. cbn [filter] in Hle, Hone.
    rewrite length_app in Hle, Hone.
    assert (Hsame : created r = true -> r' = r).
    { destruct r; try discriminate. intros _. cbn in Ea. now injection Ea as <- _. }
    apply IH; [exact Hinv' | |]; rewrite filter_app; cbn [filter];
      rewrite length_app;
      destruct (created r) eqn:Cr; destruct (created r') eqn:Cr';
      cbn [List.length] in *.
    + exact Hle.
    + rewrite (Hsame eq_refl) in Cr'. congruence.
    + specialize (F eq_refl eq_refl).
      destruct (List.length (filter created pre) + List.length (filter created post))%nat
        as [|m] eqn:Em; [lia|].
      assert (existsb (has_id z) (users w) = true); [|congruence].
      apply Hone. lia.
    + exact Hle.
    + intros _. apply Hgrow. apply Hone. lia.
    + rewrite (Hsame eq_refl) in Cr'. congruence.
    + intros _. destruct r' as [| |res]; try discriminate.
      cbn [request_ok] in Hr'. tauto.
    + intros H. apply Hgrow. now apply Hone.
Qed.

End Settled.

(** X5. Requests for an id the table already holds never fail, however
    their queries interleave: with the engine raising no fault, once each
    of the [n] requests for one valid payload, which the table stores as
    it is, has had its two turns, every one of them is answered 200. *)
Theorem concurrent_updates_succeed mode schedule n payload z w :
  storable_payload payload z = true -> faults w = [] ->
  existsb (has_id z) (users w) = true -> fair n schedule = true ->
  Forall updated
    (fst (Concurrent.run mode schedule
            (repeat (Concurrent.Received payload) n) w)).
Proof.
  intros Hs Hq Hex Hfair.
  pose proof (storable_valid _ _ Hs) as Hv.
  set (final := Concurrent.run mode schedule
                  (repeat (Concurrent.Received payload) n) w).
  assert (Hall : Forall (update_only payload) (fst final)).
  { apply (run_update_only mode payload z Hv); auto.
    apply Forall_forall. intros q Hin. apply repeat_spec in Hin. now subst. }
  assert (Hlen : List.length (fst final) = n).
  { subst final. rewrite run_length. apply repeat_length. }
  assert (Hdone : forallb Concurrent.responded (fst final) = true).
  { apply all_responded. intros j Hj. rewrite Hlen in Hj.
    pose proof (run_rank mode schedule
                  (repeat (Concurrent.Received payload) n) w j) as R.
    fold final in R. rewrite (rank_at_received payload n j Hj) in R.
    pose proof (fair_turns n schedule j Hfair Hj). lia. }
  rewrite forallb_forall in Hdone. rewrite Forall_forall in Hall |- *.
  intros q Hin. specialize (Hdone q Hin). specialize (Hall q Hin).
  destruct q as [b|q rows|res]; try discriminate.
  exists res. split; [reflexivity | exact Hall].
Qed.

Lemma concurrent_updates_succeed_witness :
  let payload :=
    JObj [("id", JNum 42); ("is_bot", JBool false); ("first_name", JStr "Anna")] in
  let stored :=
    mk_row 42 JNull (JStr "Ana") JNull JNull JNull JNull JNull JNull JNull
           JNull (Some "en") 3 5 in
  Forall updated
    (fst (Concurrent.run None
            [(0%nat, 10); (1%nat, 11); (2%nat, 12);
             (2%nat, 13); (1%nat, 14); (0%nat, 15)]
            (repeat (Concurrent.Received payload) 3)
            (mk_world [stored] [] []))).
Proof.
  intros payload stored.
  apply (concurrent_updates_succeed None
           [(0%nat, 10); (1%nat, 11); (2%nat, 12);
            (2%nat, 13); (1%nat, 14); (0%nat, 15)]
           3 payload 42 (mk_world [stored] [] []));
    reflexivity.
Defined.

(** X6. However many requests for one valid payload run at once and
    however they interleave, at most one of them is answered 201: the row
    is created once. *)
Theorem at_most_one_created mode schedule n payload z w :
  valid_payload payload z = true -> faults w = [] ->
  NoDup (map id (users w)) ->
  (List.length
     (filter created
        (fst (Concurrent.run mode schedule
                (repeat (Concurrent.Received payload) n) w))) <= 1)%nat.
Proof.
  intros Hv Hq Hnd.
  assert (Hzero : filter created (repeat (Concurrent.Received payload) n) = []).
  { induction n as [|m IH]; [reflexivity | exact IH]. }
  apply (run_created mode payload z Hv).
  - refine (conj Hnd (conj Hq _)). apply Forall_forall.
    intros q Hin. apply repeat_spec in Hin. subst q. reflexivity.
  - rewrite Hzero. cbn. lia.
  - rewrite Hzero. discriminate.
Qed.

Lemma at_most_one_created_witness :
  let payload := JObj [("id", JNum 42); ("first_name", JStr "Ana")] in
  let schedule :=
    [(0%nat, 10); (1%nat, 11); (2%nat, 12);
     (1%nat, 13); (0%nat, 14); (2%nat, 15)] in
  (List.length
     (filter created
        (fst (Concurrent.run None schedule
                (repeat (Concurrent.Received payload) 3)
                (mk_world [] [] [])))) <= 1)%nat.
Proof.
  intros payload schedule.
  apply (at_most_one_created None schedule 3 payload 42 (mk_world [] [] [])).
  - reflexivity.
  - reflexivity.
  - constructor.
Defined.

(* ------------------------------------------------------------------ *)
(** ** The translation endpoints together *)

Lemma advertised_supported lang :
  In (JStr lang) advertised <-> includes supportedLanguages lang = true.
Proof.
  change advertised with (map JStr supportedLanguages).
  unfold includes. rewrite existsb_exists, in_map_iff. split.
  - intros (l & [= ->] & Hin). exists lang. split; [exact Hin|].
    apply String.eqb_refl.
  - intros (l & Hin & E). apply String.eqb_eq in E. subst l. eauto.
Qed.

(** X7. The two translation endpoints agree.  A code the list endpoint
    advertises is never answered 400 or 404 by the bundle endpoint: it is
    answered 200 exactly when its file holds JSON, and 500 otherwise.  A
    code that is not advertised is never served: it is answered 400 or
    404.  So 200 is given for exactly the advertised codes whose file
    holds JSON.  The default language the list names is advertised. *)
Theorem served_iff_advertised fs lang :
  let answer := status (Backend.getTranslations fs lang) in
  let parsable :=
    exists translations, fs (filePath lang) = Some (Denotes translations) in
  (In (JStr lang) advertised ->
   answer <> 400 /\ answer <> 404 /\
   (parsable -> answer = 200) /\ (~ parsable -> answer = 500)) /\
  (~ In (JStr lang) advertised -> answer = 400 \/ answer = 404) /\
  (answer = 200 <-> In (JStr lang) advertised /\ parsable) /\
  In (prop (body listTranslations) "defaultLanguage") advertised.
Proof.
  intros answer parsable.
  assert (Hyes : In (JStr lang) advertised ->
                 answer <> 400 /\ answer <> 404 /\
                 (parsable -> answer = 200) /\ (~ parsable -> answer = 500)).
  { intros Hin. apply advertised_supported in Hin. subst answer parsable.
    rewrite (getTranslations_supported fs lang Hin).
    destruct (fs (filePath lang)) as [[v|raw]|]; rewrite ?status_json;
      cbn [status]; repeat split; try discriminate; try reflexivity.
    - intros Hno. elim Hno. eauto.
    - intros (v & [=]).
    - intros (v & [=]). }
  assert (Hno : ~ In (JStr lang) advertised -> answer = 400 \/ answer = 404).
  { intros Hout. rewrite advertised_supported in Hout.
    subst answer. unfold Backend.getTranslations.
    destruct (negb (truthy (JStr lang)) || negb (two_lowercase lang));
      [left; apply status_json|].
    destruct (includes supportedLanguages lang); [now elim Hout|].
    right. apply status_json. }
  split; [exact Hyes|]. split; [exact Hno|]. split; [|cbn; auto].
  split.
  - intros H200.
    assert (Hin : In (JStr lang) advertised).
    { destruct (includes supportedLanguages lang) eqn:E;
        [now apply advertised_supported|].
      assert (Hout : ~ In (JStr lang) advertised)
        by (rewrite advertised_supported, E; discriminate).
      destruct (Hno Hout) as [H | H]; rewrite H in H200; discriminate. }
    split; [exact Hin|].
    destruct (Hyes Hin) as (_ & _ & _ & H500).
    subst parsable.
    destruct (fs (filePath lang)) as [[v|raw]|] eqn:Ef; [eauto | |];
      (rewrite H500 in H200; [discriminate | intros (v & [=])]).
  - intros [Hin Hp]. now apply (Hyes Hin).
Qed.

Lemma served_iff_advertised_witness :
  let fs :=
    with_file (fun _ => None) (filePath "ru")
      (Some (Denotes (JObj [("welcome_message", JStr "Privet")]))) in
  status (Backend.getTranslations fs "ru") = 200 /\
  status (Backend.getTranslations fs "zh") = 500 /\
  (status (Backend.getTranslations fs "tlh") = 400 \/
   status (Backend.getTranslations fs "tlh") = 404).
Proof.
  intros fs.
  assert (Hru : In (JStr "ru") advertised) by (cbn; auto 10).
  assert (Hzh : In (JStr "zh") advertised) by (cbn; auto 10).
  assert (Htlh : ~ In (JStr "tlh") advertised)
    by (cbn; intuition discriminate).
  split; [|split].
  - destruct (proj1 (served_iff_advertised fs "ru") Hru) as (_ & _ & H & _).
    apply H. eexists. reflexivity.
  - destruct (proj1 (served_iff_advertised fs "zh") Hzh) as (_ & _ & _ & H).
    apply H. intros (v & [=]).
  - exact (proj1 (proj2 (served_iff_advertised fs "tlh")) Htlh).
Defined.

(** X8. Whatever code is asked for, the answer depends on the files only
    through the six locale files: no request makes the handler read
    another path. *)
Theorem only_locale_files_are_read fs fs' lang :
  (forall l, In l supportedLanguages -> fs (filePath l) = fs' (filePath l)) ->
  Backend.getTranslations fs lang = Backend.getTranslations fs' lang.
Proof.
  intros Hsame. unfold Backend.getTranslations.
  destruct (negb (truthy (JStr lang)) || negb (two_lowercase lang));
    [reflexivity|].
  destruct (includes supportedLanguages lang) eqn:Hin; [|reflexivity].
  cbn [negb]. rewrite (Hsame lang); [reflexivity|].
  apply advertised_supported in Hin.
  change advertised with (map JStr supportedLanguages) in Hin.
  apply in_map_iff in Hin. destruct Hin as (l & [= ->] & Hin). exact Hin.
Qed.

Lemma only_locale_files_are_read_witness :
  let secret := Some (Denotes (JObj [("password", JStr "hunter2")])) in
  let asked := "../../../../etc/secret" in
  Backend.getTranslations (fun _ => None) asked
  = Backend.getTranslations
      (with_file (fun _ => None) (filePath asked) secret) asked.
Proof.
  intros secret asked.
  apply (only_locale_files_are_read (fun _ => None)
           (with_file (fun _ => None) (filePath asked) secret)).
  intros l [<- | [<- | [<- | [<- | [<- | [<- | []]]]]]]; reflexivity.
Defined.

(* ------------------------------------------------------------------ *)
(** ** The bot's other handlers *)

Section Handlers.

Import Bot.

Variable env : environment.

Lemma request_answered c st data ms :
  axios (gateway env (List.length (calls st)) c) = (inr data, ms) ->
  request env c st
  = (inr data,
     mk_progress (c :: calls st) (waited st + ms) (attempted st) (delivered st)).
Proof. intros E. unfold request. now rewrite E. Qed.

Lemma request_rejected c st msg ms :
  axios (gateway env (List.length (calls st)) c) = (inl msg, ms) ->
  request env c st
  = (inl msg,
     mk_progress (c :: calls st) (waited st + ms) (attempted st) (delivered st)).
Proof. intros E. unfold request. now rewrite E. Qed.

Lemma wrapper_same (m : B jsval) st :
  catch m (fun error => throw error) st = m st.
Proof. unfold catch, throw. destruct (m st) as [[e|a] st']; reflexivity. Qed.

(** X9. [handleBotError] asks the Gateway once, for the "en" bundle, and
    hands Telegram at most two texts; it ends having delivered one message
    unless Telegram refused the built-in one, which is then the last text
    it tried, and only then does it throw. *)
Theorem handleBotError_last_resort error st :
  let run := handleBotError env error st in
  calls (snd run) = GetTranslations (JStr "en") :: calls st /\
  (List.length (attempted (snd run)) <= List.length (attempted st) + 2)%nat /\
  match fst run with
  | inr _ => exists text, delivered (snd run) = text :: delivered st
  | inl _ =>
      delivered (snd run) = delivered st /\
      hd JNull (attempted (snd run)) = fallback_message /\
      exists n, telegram env n fallback_message = false
  end.
Proof.
  intros run. subst run.
  assert (G : forall l s,
             Bot.getTranslations env l s = request env (GetTranslations l) s)
    by (intros; unfold Bot.getTranslations; apply wrapper_same).
  unfold handleBotError, catch, bindM. rewrite G.
  assert (Hlast : forall st1,
    calls st1 = GetTranslations (JStr "en") :: calls st ->
    (List.length (attempted st1) <= List.length (attempted st) + 1)%nat ->
    delivered st1 = delivered st ->
    calls (snd (reply env fallback_message st1))
    = GetTranslations (JStr "en") :: calls st /\
    (List.length (attempted (snd (reply env fallback_message st1)))
     <= List.length (attempted st) + 2)%nat /\
    match fst (reply env fallback_message st1) with
    | inr _ => exists text,
        delivered (snd (reply env fallback_message st1)) = text :: delivered st
    | inl _ =>
        delivered (snd (reply env fallback_message st1)) = delivered st /\
        hd JNull (attempted (snd (reply env fallback_message st1)))
        = fallback_message /\
        exists n, telegram env n fallback_message = false
    end).
  { intros st1 Hc Ha Hd. unfold reply.
    destruct (telegram env (List.length (attempted st1)) fallback_message) eqn:T;
      cbn [fst snd calls attempted delivered List.length hd].
    - rewrite Hd. repeat split; eauto. lia.
    - split; [exact Hc|]. split; [lia|]. split; [exact Hd|]. split; eauto. }
  unfold request.
  destruct (axios (gateway env (List.length (calls st))
                           (GetTranslations (JStr "en"))))
    as [[msg|translations] ms].
  - apply Hlast; cbn [calls attempted delivered]; auto; lia.
  - unfold get. destruct (member translations "error_generic") as [v|];
      unfold ret, throw.
    + match goal with
      | |- context [reply env ?t ?s] =>
          destruct (reply_step env t s) as [R | [m R]]; rewrite R
      end.
      * cbn [fst snd calls attempted delivered List.length].
        repeat split; eauto; lia.
      * apply Hlast; cbn [calls attempted delivered List.length]; auto; lia.
    + apply Hlast; cbn [calls attempted delivered]; auto; lia.
Qed.

Hypothesis fallback_accepted : forall n, telegram env n fallback_message = true.

(** A [try] block that is orderly, guarded by [handleBotError]. *)
Lemma guarded k (m : B unit) st :
  orderly env k m ->
  let run := catch m (fun error => handleBotError env error) st in
  fst run = inr tt /\ within (S k) st (snd run) /\
  (exists text, delivered (snd run) = text :: delivered st) /\
  (rejects_all env -> delivered (snd run) = fallback_message :: delivered st).
Proof.
  intros Hm run. subst run. unfold catch.
  destruct (Hm st) as (outcome & st1 & E & [Hc Hw] & Hd & Hrej).
  rewrite E. destruct outcome as [error|[]].
  - destruct (handleBotError_step env fallback_accepted error st1)
      as (st2 & text & E2 & Hc2 & Hw2 & Hd2 & _ & Hfb).
    rewrite E2. cbn [fst snd]. unfold within.
    rewrite Hc2, Hd2, Hd. cbn [List.length].
    split; [reflexivity|]. split; [split; [lia|]|].
    + rewrite Nat2Z.inj_succ. unfold timeout in *. lia.
    + split; [eauto|]. intros Hr. now rewrite (Hfb Hr).
  - cbn [fst snd]. unfold within. split; [reflexivity|]. split; [split; [lia|]|].
    + rewrite Nat2Z.inj_succ. unfold timeout in *. lia.
    + split; [exact Hd|]. intros Hr. destruct (Hrej Hr) as [? ?]. discriminate.
Qed.

Ltac thrown :=
  do 2 eexists; split; [reflexivity|]; unfold within;
  cbn [calls waited delivered List.length];
  repeat match goal with H : calls _ = _ |- _ => rewrite H end;
  repeat match goal with H : delivered _ = _ |- _ => rewrite H end;
  cbn [List.length]; unfold timeout in *;
  repeat split; eauto; try lia;
  try (intros Hr; exfalso;
       match goal with H : rejects_all _ -> False |- _ => exact (H Hr) end).

Lemma help_try_orderly user : orderly env 2 (help_try env user).
Proof.
  intros st. unfold help_try, bindM, get.
  destruct (findOrCreateUser_step env user st)
    as (o1 & st1 & E1 & Hc1 & Hw1 & Ha1 & Hd1 & Hrej1).
  rewrite E1. destruct o1 as [msg|userRecord].
  { thrown. }
  assert (Hno : rejects_all env -> False).
  { intros Hr. destruct (Hrej1 Hr) as [? ?]. discriminate. }
  destruct (member userRecord "preferred_language") as [pl|];
    unfold ret, throw.
  2:{ thrown. }
  destruct (getTranslations_step env (or_else pl (JStr "en")) st1)
    as (o2 & st2 & E2 & Hc2 & Hw2 & Ha2 & Hd2 & Hrej2).
  rewrite E2. destruct o2 as [msg|translations].
  { thrown. }
  destruct (reply_step env (JStr helpMessage) st2) as [R | [m R]]; rewrite R;
    thrown.
Qed.

Lemma language_try_orderly : orderly env 1 (language_try env).
Proof.
  intros st. unfold language_try, bindM, getSupportedLanguages.
  rewrite wrapper_same.
  destruct (request_step env GetSupportedLanguages st)
    as (o1 & st1 & E1 & Hc1 & Hw1 & Ha1 & Hd1 & Hrej1).
  rewrite E1. destruct o1 as [msg|data].
  { thrown. }
  assert (Hno : rejects_all env -> False).
  { intros Hr. destruct (Hrej1 Hr) as [? ?]. discriminate. }
  destruct (reply_step env (JStr languageMessage) st1) as [R | [m R]]; rewrite R;
    thrown.
Qed.

Lemma text_try_orderly user message : orderly env 2 (text_try env user message).
Proof.
  intros st. unfold text_try, bindM, get.
  destruct (member message "text") as [t|]; unfold ret, throw.
  2:{ thrown. }
  destruct (member user "id") as [v|].
  2:{ thrown. }
  destruct (findOrCreateUser_step env user st)
    as (o1 & st1 & E1 & Hc1 & Hw1 & Ha1 & Hd1 & Hrej1).
  rewrite E1. destruct o1 as [msg|userRecord].
  { thrown. }
  assert (Hno : rejects_all env -> False).
  { intros Hr. destruct (Hrej1 Hr) as [? ?]. discriminate. }
  destruct (member userRecord "preferred_language") as [pl|].
  2:{ thrown. }
  destruct (getTranslations_step env (or_else pl (JStr "en")) st1)
    as (o2 & st2 & E2 & Hc2 & Hw2 & Ha2 & Hd2 & Hrej2).
  rewrite E2. destruct o2 as [msg|translations].
  { thrown. }
  match goal with
  | |- context [reply env ?t ?s] =>
      destruct (reply_step env t s) as [R | [m R]]; rewrite R
  end;
    thrown.
Qed.

End Handlers.

Lemma findOrCreateUser_answered env user st data ms :
  Bot.axios (Bot.gateway env (List.length (Bot.calls st))
                         (Bot.PostFindOrCreate user)) = (inr data, ms) ->
  Bot.findOrCreateUser env user st
  = (inr data,
     Bot.mk_progress (Bot.PostFindOrCreate user :: Bot.calls st)
       (Bot.waited st + ms) (Bot.attempted st) (Bot.delivered st)).
Proof.
  intros E. unfold Bot.findOrCreateUser. rewrite wrapper_same.
  now apply request_answered.
Qed.

Lemma getTranslations_answered env language st data ms :
  Bot.axios (Bot.gateway env (List.length (Bot.calls st))
                         (Bot.GetTranslations language)) = (inr data, ms) ->
  Bot.getTranslations env language st
  = (inr data,
     Bot.mk_progress (Bot.GetTranslations language :: Bot.calls st)
       (Bot.waited st + ms) (Bot.attempted st) (Bot.delivered st)).
Proof.
  intros E. unfold Bot.getTranslations. rewrite wrapper_same.
  now apply request_answered.
Qed.

Lemma getTranslations_rejected env language st msg ms :
  Bot.axios (Bot.gateway env (List.length (Bot.calls st))
                         (Bot.GetTranslations language)) = (inl msg, ms) ->
  Bot.getTranslations env language st
  = (inl msg,
     Bot.mk_progress (Bot.GetTranslations language :: Bot.calls st)
       (Bot.waited st + ms) (Bot.attempted st) (Bot.delivered st)).
Proof.
  intros E. unfold Bot.getTranslations. rewrite wrapper_same.
  now apply request_rejected.
Qed.

Lemma reply_accepted env text st :
  Bot.telegram env (List.length (Bot.attempted st)) text = true ->
  Bot.reply env text st
  = (inr tt,
     Bot.mk_progress (Bot.calls st) (Bot.waited st) (text :: Bot.attempted st)
       (text :: Bot.delivered st)).
Proof. intros E. unfold Bot.reply. now rewrite E. Qed.

(** What [guarded] gives for an update handled from scratch. *)
Lemma guarded_idle env k m :
  (forall n, Bot.telegram env n Bot.fallback_message = true) ->
  orderly env k m ->
  let run := catch m (fun error => Bot.handleBotError env error) Bot.idle in
  fst run = inr tt /\
  (List.length (Bot.calls (snd run)) <= S k)%nat /\
  Bot.waited (snd run) <= Z.of_nat (S k) * Bot.timeout /\
  (exists text, Bot.delivered (snd run) = [text]) /\
  (Bot.rejects_all env -> Bot.delivered (snd run) = [Bot.fallback_message]).
Proof.
  intros Hacc Hm run.
  destruct (guarded env Hacc k m Bot.idle Hm) as (H1 & [H2 H3] & H4 & H5).
  fold run in H1, H2, H3, H4, H5. cbn [Bot.idle Bot.calls Bot.waited
    Bot.delivered List.length] in *.
  repeat split; auto; lia.
Qed.

Lemma help_post_rejected env user msg ms :
  Bot.axios (Bot.gateway env 0 (Bot.PostFindOrCreate user)) = (inl msg, ms) ->
  Bot.help_try env user Bot.idle
  = (inl msg, Bot.mk_progress [Bot.PostFindOrCreate user] (0 + ms) [] []).
Proof.
  intros E. unfold Bot.help_try, bindM.
  unfold Bot.findOrCreateUser, catch, Bot.request, throw.
  cbn [Bot.calls Bot.idle List.length]. rewrite E. reflexivity.
Qed.

Lemma help_bundle_rejected env user userRecord ms1 preference msg ms2 :
  Bot.axios (Bot.gateway env 0 (Bot.PostFindOrCreate user))
  = (inr userRecord, ms1) ->
  member userRecord "preferred_language" = Some preference ->
  Bot.axios (Bot.gateway env 1
               (Bot.GetTranslations (or_else preference (JStr "en"))))
  = (inl msg, ms2) ->
  Bot.help_try env user Bot.idle
  = (inl msg,
     Bot.mk_progress
       [Bot.GetTranslations (or_else preference (JStr "en"));
        Bot.PostFindOrCreate user]
       (0 + ms1 + ms2) [] []).
Proof.
  intros E1 Hp E2. unfold Bot.help_try, bindM, Bot.get.
  unfold Bot.findOrCreateUser, Bot.getTranslations, catch, Bot.request, throw.
  cbn [Bot.calls Bot.idle List.length]. rewrite E1, Hp. unfold ret at 1.
  cbn [Bot.calls Bot.waited Bot.attempted Bot.delivered List.length].
  rewrite E2. reflexivity.
Qed.

(** X10. [/help] sends a fixed text, yet only after the upsert and the
    bundle request have both been answered: then the text goes out
    whatever the bundle holds, and when either call fails the help text is
    not handed to Telegram at all; the bot asks for the "en" bundle and the
    user gets the error message.  Provided Telegram accepts the built-in
    message the handler never throws, makes at most three calls and
    delivers exactly one message, the built-in one when the Gateway
    rejects every call. *)
Theorem help_waits_for_gateway env user :
  (forall n, Bot.telegram env n Bot.fallback_message = true) ->
  let run := Bot.help env user Bot.idle in
  let en := Bot.GetTranslations (JStr "en") in
  (fst run = inr tt /\
   (List.length (Bot.calls (snd run)) <= 3)%nat /\
   Bot.waited (snd run) <= 3 * Bot.timeout /\
   (exists text, Bot.delivered (snd run) = [text]) /\
   (Bot.rejects_all env -> Bot.delivered (snd run) = [Bot.fallback_message])) /\
  (forall userRecord ms1 preference translations ms2,
     Bot.axios (Bot.gateway env 0 (Bot.PostFindOrCreate user))
     = (inr userRecord, ms1) ->
     member userRecord "preferred_language" = Some preference ->
     Bot.axios (Bot.gateway env 1
                  (Bot.GetTranslations (or_else preference (JStr "en"))))
     = (inr translations, ms2) ->
     Bot.telegram env 0 (JStr Bot.helpMessage) = true ->
     run = (inr tt,
            Bot.mk_progress
              [Bot.GetTranslations (or_else preference (JStr "en"));
               Bot.PostFindOrCreate user]
              (0 + ms1 + ms2) [JStr Bot.helpMessage] [JStr Bot.helpMessage])) /\
  (forall msg ms,
     Bot.axios (Bot.gateway env 0 (Bot.PostFindOrCreate user)) = (inl msg, ms) ->
     run = Bot.handleBotError env msg
             (Bot.mk_progress [Bot.PostFindOrCreate user] (0 + ms) [] []) /\
     Bot.calls (snd run) = [en; Bot.PostFindOrCreate user] /\
     Bot.delivered (snd run) = [error_reply env 1 0]) /\
  (forall userRecord ms1 preference msg ms2,
     Bot.axios (Bot.gateway env 0 (Bot.PostFindOrCreate user))
     = (inr userRecord, ms1) ->
     member userRecord "preferred_language" = Some preference ->
     let bundle := Bot.GetTranslations (or_else preference (JStr "en")) in
     Bot.axios (Bot.gateway env 1 bundle) = (inl msg, ms2) ->
     run = Bot.handleBotError env msg
             (Bot.mk_progress [bundle; Bot.PostFindOrCreate user]
                              (0 + ms1 + ms2) [] []) /\
     Bot.calls (snd run) = [en; bundle; Bot.PostFindOrCreate user] /\
     Bot.delivered (snd run) = [error_reply env 2 0]).
Proof.
  intros Hacc run en. split; [|split; [|split]].
  - exact (guarded_idle env 2 _ Hacc (help_try_orderly env user)).
  - intros userRecord ms1 preference translations ms2 E1 Hp E2 Ht.
    subst run. unfold Bot.help, catch, Bot.help_try, bindM.
    rewrite (findOrCreateUser_answered env user Bot.idle userRecord ms1 E1).
    unfold Bot.get. rewrite Hp. unfold ret at 1.
    cbn [Bot.idle Bot.calls Bot.waited Bot.attempted Bot.delivered].
    rewrite (getTranslations_answered env _
               (Bot.mk_progress [Bot.PostFindOrCreate user] (0 + ms1) [] [])
               translations ms2 E2).
    rewrite reply_accepted by exact Ht. reflexivity.
  - intros msg ms E.
    pose proof (help_post_rejected env user msg ms E) as Ht.
    destruct (caught_reply env (Bot.help_try env user) Bot.idle msg _ Hacc Ht)
      as (_ & Hc & Hd).
    split; [|split; [exact Hc | exact Hd]].
    subst run. unfold Bot.help, catch. now rewrite Ht.
  - intros userRecord ms1 preference msg ms2 E1 Hp bundle E2.
    pose proof (help_bundle_rejected env user userRecord ms1 preference
                  msg ms2 E1 Hp E2) as Ht.
    destruct (caught_reply env (Bot.help_try env user) Bot.idle msg _ Hacc Ht)
      as (_ & Hc & Hd).
    split; [|split; [exact Hc | exact Hd]].
    subst run. unfold Bot.help, catch. now rewrite Ht.
Qed.

Lemma help_waits_for_gateway_witness :
  let env :=
    Bot.mk_environment
      (fun n c =>
         match c with
         | Bot.PostFindOrCreate _ =>
             Bot.Answer 20 200 (JObj [("preferred_language", JStr "de")])
         | _ => Bot.Answer 30 200 (JObj [])
         end)
      (fun _ _ => true) in
  let down :=
    Bot.mk_environment
      (fun n c =>
         match c with
         | Bot.PostFindOrCreate _ =>
             Bot.Answer 20 200 (JObj [("preferred_language", JStr "de")])
         | _ => Bot.NoResponse 7 "socket hang up"
         end)
      (fun _ _ => true) in
  let user := JObj [("id", JNum 42); ("first_name", JStr "Ana")] in
  Bot.help env user Bot.idle
  = (inr tt,
     Bot.mk_progress
       [Bot.GetTranslations (JStr "de"); Bot.PostFindOrCreate user]
       50 [JStr Bot.helpMessage] [JStr Bot.helpMessage]) /\
  Bot.calls (snd (Bot.help down user Bot.idle))
  = [Bot.GetTranslations (JStr "en"); Bot.GetTranslations (JStr "de");
     Bot.PostFindOrCreate user] /\
  Bot.delivered (snd (Bot.help down user Bot.idle)) = [Bot.fallback_message].
Proof.
  intros env down user. split.
  - exact (proj1 (proj2 (help_waits_for_gateway env user (fun _ => eq_refl)))
             (JObj [("preferred_language", JStr "de")]) 20 (JStr "de")
             (JObj []) 30 eq_refl eq_refl eq_refl eq_refl).
  - destruct (proj2 (proj2 (proj2 (help_waits_for_gateway down user
                                     (fun _ => eq_refl))))
                (JObj [("preferred_language", JStr "de")]) 20 (JStr "de")
                "socket hang up" 7 eq_refl eq_refl eq_refl) as (_ & Hc & Hd).
    split; [exact Hc | exact Hd].
Defined.

(** X11. [/language] asks the Gateway for the supported languages and
    then sends its own fixed text, whatever list came back; when the call
    is rejected the user gets the error message instead.  Provided
    Telegram accepts the built-in message the handler never throws, makes
    at most two calls and delivers exactly one message. *)
Theorem language_ignores_the_list env :
  (forall n, Bot.telegram env n Bot.fallback_message = true) ->
  let run := Bot.language env Bot.idle in
  (fst run = inr tt /\
   (List.length (Bot.calls (snd run)) <= 2)%nat /\
   Bot.waited (snd run) <= 2 * Bot.timeout /\
   (exists text, Bot.delivered (snd run) = [text]) /\
   (Bot.rejects_all env -> Bot.delivered (snd run) = [Bot.fallback_message])) /\
  forall data ms,
    Bot.axios (Bot.gateway env 0 Bot.GetSupportedLanguages) = (inr data, ms) ->
    Bot.telegram env 0 (JStr Bot.languageMessage) = true ->
    run = (inr tt,
           Bot.mk_progress [Bot.GetSupportedLanguages] (0 + ms)
             [JStr Bot.languageMessage] [JStr Bot.languageMessage]).
Proof.
  intros Hacc run. split.
  - exact (guarded_idle env 1 _ Hacc (language_try_orderly env)).
  - intros data ms E Ht. subst run.
    unfold Bot.language, catch, Bot.language_try, bindM,
      Bot.getSupportedLanguages.
    rewrite wrapper_same, (request_answered env _ Bot.idle data ms E).
    rewrite reply_accepted by exact Ht. reflexivity.
Qed.

Lemma language_ignores_the_list_witness :
  let env :=
    Bot.mk_environment
      (fun _ _ =>
         Bot.Answer 15 200
           (JObj [("supportedLanguages", JArr [JStr "tlh"]);
                  ("defaultLanguage", JStr "tlh")]))
      (fun _ _ => true) in
  Bot.language env Bot.idle
  = (inr tt,
     Bot.mk_progress [Bot.GetSupportedLanguages] 15
       [JStr Bot.languageMessage] [JStr Bot.languageMessage]).
Proof.
  intros env.
  exact (proj2 (language_ignores_the_list env (fun _ => eq_refl))
           (JObj [("supportedLanguages", JArr [JStr "tlh"]);
                  ("defaultLanguage", JStr "tlh")]) 15 eq_refl eq_refl).
Defined.

(** X12. Every text message makes the bot upsert the sender and fetch a
    bundle before it acknowledges.  Provided Telegram accepts the built-in
    message the handler never throws, makes at most three calls and
    delivers exactly one message, the built-in one when the Gateway
    rejects every call; and when the user or the message is missing no
    call is made before the error path. *)
Theorem text_upserts_first env user message :
  (forall n, Bot.telegram env n Bot.fallback_message = true) ->
  let run := Bot.text env user message Bot.idle in
  (fst run = inr tt /\
   (List.length (Bot.calls (snd run)) <= 3)%nat /\
   Bot.waited (snd run) <= 3 * Bot.timeout /\
   (exists text, Bot.delivered (snd run) = [text]) /\
   (Bot.rejects_all env -> Bot.delivered (snd run) = [Bot.fallback_message])) /\
  (member message "text" <> None -> member user "id" <> None ->
   exists later, Bot.calls (snd run) = later ++ [Bot.PostFindOrCreate user]) /\
  (member message "text" = None \/ member user "id" = None ->
   Bot.calls (snd run) = [Bot.GetTranslations (JStr "en")]).
Proof.
  intros Hacc run.
  split; [exact (guarded_idle env 2 _ Hacc (text_try_orderly env user message))|].
  subst run. unfold Bot.text, catch, Bot.text_try, bindM, Bot.get.
  split.
  - intros Hm Hu.
    destruct (member message "text") as [t|]; [|contradiction].
    destruct (member user "id") as [v|]; [|contradiction].
    unfold ret at 1 2.
    destruct (findOrCreateUser_step env user Bot.idle)
      as (o1 & st1 & E1 & Hc1 & _).
    rewrite E1. cbn [Bot.idle Bot.calls] in Hc1.
    destruct o1 as [msg|userRecord].
    + destruct (handleBotError_step env Hacc msg st1)
        as (st2 & text & -> & Hc2 & _).
      cbn [snd]. rewrite Hc2, Hc1. now exists [Bot.GetTranslations (JStr "en")].
    + destruct (member userRecord "preferred_language") as [pl|];
        unfold ret, throw.
      2:{ match goal with
          | |- context [Bot.handleBotError env ?e ?s] =>
              destruct (handleBotError_step env Hacc e s)
                as (st2 & text & -> & Hc2 & _)
          end.
          cbn [snd]. rewrite Hc2, Hc1.
          now exists [Bot.GetTranslations (JStr "en")]. }
      destruct (getTranslations_step env (or_else pl (JStr "en")) st1)
        as (o2 & st2 & E2 & Hc2 & _).
      rewrite E2. destruct o2 as [msg|translations].
      * destruct (handleBotError_step env Hacc msg st2)
          as (st3 & text & -> & Hc3 & _).
        cbn [snd]. rewrite Hc3, Hc2, Hc1.
        now exists [Bot.GetTranslations (JStr "en");
                    Bot.GetTranslations (or_else pl (JStr "en"))].
      * match goal with
        | |- context [Bot.reply env ?t ?s] =>
            destruct (reply_step env t s) as [R | [m R]]; rewrite R
        end.
        -- cbn [snd Bot.calls]. rewrite Hc2, Hc1.
           now exists [Bot.GetTranslations (or_else pl (JStr "en"))].
        -- match goal with
           | |- context [Bot.handleBotError env ?e ?s] =>
               destruct (handleBotError_step env Hacc e s)
                 as (st3 & text & -> & Hc3 & _)
           end.
           cbn [snd Bot.calls] in *. rewrite Hc3, Hc2, Hc1.
           now exists [Bot.GetTranslations (JStr "en");
                       Bot.GetTranslations (or_else pl (JStr "en"))].
  - intros Hmiss. destruct (member message "text") as [t|] eqn:Em.
    + destruct Hmiss as [[=] | Hu]. rewrite Hu. unfold ret at 1. unfold throw at 1.
      destruct (handleBotError_step env Hacc
                  "Cannot read properties of undefined" Bot.idle)
        as (st2 & text & -> & Hc2 & _).
      cbn [snd]. exact Hc2.
    + unfold throw at 1.
      destruct (handleBotError_step env Hacc
                  "Cannot read properties of undefined" Bot.idle)
        as (st2 & text & -> & Hc2 & _).
      cbn [snd]. exact Hc2.
Qed.

Lemma text_upserts_first_witness :
  let env :=
    Bot.mk_environment (fun _ _ => Bot.NoResponse 12 "connect ECONNREFUSED")
                       (fun _ _ => true) in
  let user := JObj [("id", JNum 42); ("first_name", JStr "Ana")] in
  let run := Bot.text env user (JObj [("text", JStr "hello")]) Bot.idle in
  fst run = inr tt /\
  Bot.delivered (snd run) = [Bot.fallback_message] /\
  exists later, Bot.calls (snd run) = later ++ [Bot.PostFindOrCreate user].
Proof.
  intros env user.
  pose proof (text_upserts_first env user (JObj [("text", JStr "hello")])
                (fun _ => eq_refl)) as H.
  cbv zeta in H. destruct H as ((H1 & _ & _ & _ & H5) & H6 & _).
  split; [exact H1|]. split.
  - apply H5. intros n c. do 2 eexists. reflexivity.
  - apply H6; discriminate.
Defined.

(* ------------------------------------------------------------------ *)
(** ** The bot against the backend *)

Lemma axios_answers_as x r :
  answers_as x r -> 200 <= status r < 300 ->
  exists ms, Bot.axios x = (inr (body r), ms).
Proof.
  intros (latency & Hl & ->) [H1 H2]. exists latency. unfold Bot.axios.
  destruct (Z.leb_spec Bot.timeout latency); [lia|].
  destruct (Z.leb_spec 200 (status r)); [|lia].
  destruct (Z.ltb_spec (status r) 300); [reflexivity|lia].
Qed.

Lemma axios_refuses_as x r :
  answers_as x r -> 300 <= status r ->
  exists msg ms, Bot.axios x = (inl msg, ms).
Proof.
  intros (latency & Hl & ->) H. unfold Bot.axios.
  destruct (Z.leb_spec Bot.timeout latency); [lia|].
  destruct (Z.ltb_spec (status r) 300); [lia|].
  rewrite andb_false_r. eauto.
Qed.

Lemma handleBotError_calls env error st :
  Bot.calls (snd (Bot.handleBotError env error st))
  = Bot.GetTranslations (JStr "en") :: Bot.calls st.
Proof.
  unfold Bot.handleBotError, catch, bindM, Bot.getTranslations, catch,
    Bot.request, throw.
  destruct (Bot.axios _) as [[msg|translations] ms].
  - unfold Bot.reply. now destruct (Bot.telegram env _ _).
  - unfold Bot.get. destruct (member translations "error_generic") as [v|];
      unfold ret, throw.
    + unfold Bot.reply at 1. cbn [Bot.attempted].
      destruct (Bot.telegram env _ (or_else v Bot.fallback_message));
        [reflexivity|].
      unfold Bot.reply. cbn [Bot.attempted].
      now destruct (Bot.telegram env _ Bot.fallback_message).
    + unfold Bot.reply. now destruct (Bot.telegram env _ _).
Qed.

Lemma preference_of_row r :
  member (row_json r) "preferred_language"
  = Some (nullable (preferred_language r)).
Proof. reflexivity. Qed.

Lemma or_else_preference pl :
  or_else (nullable pl) (JStr "en")
  = JStr (match pl with
          | Some l => if (l =? "")%string then "en" else l
          | None => "en"
          end).
Proof.
  destruct pl as [l|]; [|reflexivity]. unfold or_else. cbn [nullable truthy].
  now destruct (l =? "")%string.
Qed.

(** What the upsert of [/start] returns when the Gateway answers as the
    backend does: the row, and with it the language the bot goes on to
    ask for. *)
Lemma start_after_upsert env fields z mode now w :
  valid_payload (JObj fields) z = true -> faults w = [] ->
  answers_as (Bot.gateway env 0 (Bot.PostFindOrCreate (JObj fields)))
             (fst (findOrCreate mode now (JObj fields) w)) ->
  exists ms1,
    Bot.start_try env (JObj fields) Bot.idle
    = (translations <-
         Bot.getTranslations env
           (JStr (bundle_for (find (has_id z) (users w)))) ;;
       welcome_message <- Bot.get translations "welcome_message" ;;
       Bot.reply env welcome_message)
        (Bot.mk_progress [Bot.PostFindOrCreate (JObj fields)] (0 + ms1) [] []).
Proof.
  intros Hv Hq Hans.
  pose proof (findOrCreate_valid mode now (JObj fields) z w Hv Hq) as Hrun.
  cbv zeta in Hrun.
  assert (Hbody : exists r,
    fst (findOrCreate mode now (JObj fields) w)
    = mk_response (match find (has_id z) (users w) with
                   | Some _ => 200
                   | None => 201
                   end) (row_json r)
    /\ match preferred_language r with
       | Some l => if (l =? "")%string then "en" else l
       | None => "en"
       end = bundle_for (find (has_id z) (users w))).
  { rewrite Hrun. destruct (find (has_id z) (users w)) as [r|].
    - eexists. split; reflexivity.
    - eexists. split; reflexivity. }
  destruct Hbody as (r & Hres & Hlang).
  destruct (axios_answers_as _ _ Hans) as [ms1 E1].
  { rewrite Hres. cbn [status]. destruct (find (has_id z) (users w)); lia. }
  rewrite Hres in E1. cbn [body] in E1.
  exists ms1. unfold Bot.start_try, bindM at 1 2 3, Bot.get at 1 2.
  cbn [member]. unfold ret at 1.
  rewrite (findOrCreateUser_answered env (JObj fields) Bot.idle _ ms1 E1).
  rewrite preference_of_row. unfold ret at 1.
  rewrite or_else_preference, Hlang. reflexivity.
Qed.

(** X13. When the Gateway answers the upsert as the backend does, the
    user being one the table stores as it is and the engine raising no
    fault, the bundle [/start] asks for next is the one of the preference
    stored for the user before the call, and "en" for a user the table did
    not hold or whose preference is [NULL] or empty. *)
Theorem start_asks_for_stored_preference env fields z mode now w :
  storable_payload (JObj fields) z = true -> faults w = [] ->
  answers_as (Bot.gateway env 0 (Bot.PostFindOrCreate (JObj fields)))
             (fst (findOrCreate mode now (JObj fields) w)) ->
  exists later,
    Bot.calls (snd (Bot.start env (JObj fields) Bot.idle))
    = later ++
      [Bot.GetTranslations (JStr (bundle_for (find (has_id z) (users w))));
       Bot.PostFindOrCreate (JObj fields)].
Proof.
  intros Hs Hq Hans.
  pose proof (storable_valid _ _ Hs) as Hv.
  destruct (start_after_upsert env fields z mode now w Hv Hq Hans) as [ms1 E].
  unfold Bot.start, catch. rewrite E. clear E. unfold bindM.
  set (lang := JStr (bundle_for (find (has_id z) (users w)))).
  set (st1 := Bot.mk_progress [Bot.PostFindOrCreate (JObj fields)] (0 + ms1) [] []).
  destruct (getTranslations_step env lang st1)
    as (o2 & st2 & E2 & Hc2 & _).
  rewrite E2. destruct o2 as [msg|translations].
  - rewrite handleBotError_calls, Hc2.
    now exists [Bot.GetTranslations (JStr "en")].
  - unfold Bot.get. destruct (member translations "welcome_message") as [wm|];
      unfold ret, throw.
    + destruct (reply_step env wm st2) as [R | [m R]]; rewrite R.
      * cbn [snd Bot.calls]. rewrite Hc2. now exists [].
      * rewrite handleBotError_calls. cbn [Bot.calls]. rewrite Hc2.
        now exists [Bot.GetTranslations (JStr "en")].
    + rewrite handleBotError_calls, Hc2.
      now exists [Bot.GetTranslations (JStr "en")].
Qed.

Lemma start_asks_for_stored_preference_witness :
  let user :=
    [("id", JNum 42); ("is_bot", JBool false); ("first_name", JStr "Ana")] in
  let stored :=
    mk_row 42 JNull (JStr "Ana") JNull JNull JNull JNull JNull JNull JNull
           JNull (Some "ar") 3 5 in
  let w := mk_world [stored] [] [] in
  let upsert := fst (findOrCreate None 9 (JObj user) w) in
  let env :=
    Bot.mk_environment
      (fun _ c =>
         match c with
         | Bot.PostFindOrCreate _ => Bot.Answer 20 (status upsert) (body upsert)
         | _ => Bot.NoResponse 1 "connect ECONNREFUSED"
         end)
      (fun _ _ => true) in
  exists later,
    Bot.calls (snd (Bot.start env (JObj user) Bot.idle))
    = later ++ [Bot.GetTranslations (JStr "ar");
                Bot.PostFindOrCreate (JObj user)].
Proof.
  intros user stored w upsert env.
  apply (start_asks_for_stored_preference env user 42 None 9 w).
  - reflexivity.
  - reflexivity.
  - exists 20. split; [reflexivity|reflexivity].
Defined.

(** X14. Bot and backend end to end: when the Gateway answers both calls
    as the backend does, the user is one the table stores as it is, the
    engine raises no fault, the bundle of the user's language is among the
    supported ones, its file holds JSON with a [welcome_message] and
    Telegram accepts that text, [/start] makes exactly those two calls and
    delivers exactly that text. *)
Theorem start_welcomes env fields z mode now w fs translations welcome :
  storable_payload (JObj fields) z = true -> faults w = [] ->
  let lang := bundle_for (find (has_id z) (users w)) in
  answers_as (Bot.gateway env 0 (Bot.PostFindOrCreate (JObj fields)))
             (fst (findOrCreate mode now (JObj fields) w)) ->
  answers_as (Bot.gateway env 1 (Bot.GetTranslations (JStr lang)))
             (Backend.getTranslations fs lang) ->
  includes supportedLanguages lang = true ->
  fs (filePath lang) = Some (Denotes translations) ->
  member (body (json 200 translations)) "welcome_message" = Some welcome ->
  Bot.telegram env 0 welcome = true ->
  exists ms,
    Bot.start env (JObj fields) Bot.idle
    = (inr tt,
       Bot.mk_progress
         [Bot.GetTranslations (JStr lang); Bot.PostFindOrCreate (JObj fields)]
         ms [welcome] [welcome]).
Proof.
  intros Hs Hq lang Hans1 Hans2 Hin Hfile Hwm Ht.
  pose proof (storable_valid _ _ Hs) as Hv.
  destruct (start_after_upsert env fields z mode now w Hv Hq Hans1) as [ms1 E].
  fold lang in E.
  assert (Hres : Backend.getTranslations fs lang = json 200 translations)
    by now rewrite (getTranslations_supported fs lang Hin), Hfile.
  rewrite Hres in Hans2.
  destruct (axios_answers_as _ _ Hans2) as [ms2 E2];
    [rewrite status_json; lia|].
  exists (0 + ms1 + ms2).
  unfold Bot.start, catch. rewrite E. unfold bindM.
  rewrite (getTranslations_answered env (JStr lang)
             (Bot.mk_progress [Bot.PostFindOrCreate (JObj fields)] (0 + ms1) [] [])
             _ ms2 E2).
  unfold Bot.get. rewrite Hwm. unfold ret at 1.
  rewrite reply_accepted by exact Ht. reflexivity.
Qed.

Lemma start_welcomes_witness :
  let user :=
    [("id", JNum 42); ("is_bot", JBool false); ("first_name", JStr "Ana")] in
  let w := mk_world [] [] [] in
  let bundle := JObj [("welcome_message", JStr "Welcome to Giftunity!")] in
  let fs := with_file (fun _ => None) (filePath "en") (Some (Denotes bundle)) in
  let upsert := fst (findOrCreate None 9 (JObj user) w) in
  let served := Backend.getTranslations fs "en" in
  let env :=
    Bot.mk_environment
      (fun _ c =>
         match c with
         | Bot.PostFindOrCreate _ => Bot.Answer 20 (status upsert) (body upsert)
         | _ => Bot.Answer 30 (status served) (body served)
         end)
      (fun _ _ => true) in
  exists ms,
    Bot.start env (JObj user) Bot.idle
    = (inr tt,
       Bot.mk_progress
         [Bot.GetTranslations (JStr "en"); Bot.PostFindOrCreate (JObj user)]
         ms [JStr "Welcome to Giftunity!"] [JStr "Welcome to Giftunity!"]).
Proof.
  intros user w bundle fs upsert served env.
  apply (start_welcomes env user 42 None 9 w fs bundle
           (JStr "Welcome to Giftunity!")); try reflexivity.
  - exists 20. split; reflexivity.
  - exists 30. split; reflexivity.
Defined.

(** X15. A preference stored for the user that is not one of the six
    supported codes makes [/start] miss its bundle: the backend refuses the
    request, the bot asks for the "en" bundle and delivers the error
    message, and no welcome is sent.  The preference is a text the address
    of the request carries unchanged (letters, digits, [-], [_]), so that
    the backend is asked for that very code; the user is one the table
    stores as it is and the engine raises no fault. *)
Theorem start_with_unsupported_preference env fields z mode now w fs r :
  (forall n, Bot.telegram env n Bot.fallback_message = true) ->
  storable_payload (JObj fields) z = true -> faults w = [] ->
  find (has_id z) (users w) = Some r ->
  let lang := bundle_for (Some r) in
  plain lang = true ->
  includes supportedLanguages lang = false ->
  answers_as (Bot.gateway env 0 (Bot.PostFindOrCreate (JObj fields)))
             (fst (findOrCreate mode now (JObj fields) w)) ->
  answers_as (Bot.gateway env 1 (Bot.GetTranslations (JStr lang)))
             (Backend.getTranslations fs lang) ->
  let run := Bot.start env (JObj fields) Bot.idle in
  (status (Backend.getTranslations fs lang) = 400 \/
   status (Backend.getTranslations fs lang) = 404) /\
  fst run = inr tt /\
  Bot.calls (snd run)
  = [Bot.GetTranslations (JStr "en"); Bot.GetTranslations (JStr lang);
     Bot.PostFindOrCreate (JObj fields)] /\
  (Bot.attempted (snd run) = [error_reply env 2 0] \/
   Bot.attempted (snd run) = [Bot.fallback_message; error_text env 2]) /\
  Bot.delivered (snd run) = [error_reply env 2 0].
Proof.
  intros Hacc Hs Hq Hr lang Hplain Hout Hans1 Hans2 run.
  pose proof (storable_valid _ _ Hs) as Hv.
  destruct (start_after_upsert env fields z mode now w Hv Hq Hans1) as [ms1 E].
  rewrite Hr in E. fold lang in E.
  assert (Hst : status (Backend.getTranslations fs lang) = 400 \/
                status (Backend.getTranslations fs lang) = 404).
  { unfold Backend.getTranslations.
    destruct (negb (truthy (JStr lang)) || negb (two_lowercase lang));
      [left; apply status_json|].
    rewrite Hout. cbn [negb]. right. apply status_json. }
  split; [exact Hst|].
  destruct (axios_refuses_as _ _ Hans2) as (msg & ms2 & E2);
    [destruct Hst as [-> | ->]; lia|].
  assert (Ht : Bot.start_try env (JObj fields) Bot.idle
               = (inl msg,
                  Bot.mk_progress
                    [Bot.GetTranslations (JStr lang);
                     Bot.PostFindOrCreate (JObj fields)]
                    (0 + ms1 + ms2) [] [])).
  { rewrite E. unfold bindM.
    rewrite (getTranslations_rejected env (JStr lang)
               (Bot.mk_progress [Bot.PostFindOrCreate (JObj fields)]
                                (0 + ms1) [] [])
               msg ms2 E2).
    reflexivity. }
  subst run. unfold Bot.start, catch. rewrite Ht.
  destruct (handleBotError_attempts env Hacc msg
              (Bot.mk_progress
                 [Bot.GetTranslations (JStr lang);
                  Bot.PostFindOrCreate (JObj fields)]
                 (0 + ms1 + ms2) [] []))
    as (st' & -> & Hc & Ha & Hd).
  cbn [fst snd Bot.calls Bot.attempted Bot.delivered List.length] in *.
  rewrite Hc, Hd. split; [reflexivity|]. split; [reflexivity|].
  split; [exact Ha | reflexivity].
Qed.

Lemma start_with_unsupported_preference_witness :
  let user :=
    [("id", JNum 42); ("is_bot", JBool false); ("first_name", JStr "Ana")] in
  let stored :=
    mk_row 42 JNull (JStr "Ana") JNull JNull JNull JNull JNull JNull JNull
           JNull (Some "fr") 3 5 in
  let w := mk_world [stored] [] [] in
  let upsert := fst (findOrCreate None 9 (JObj user) w) in
  let served := Backend.getTranslations (fun _ => None) "fr" in
  let env :=
    Bot.mk_environment
      (fun _ c =>
         match c with
         | Bot.PostFindOrCreate _ => Bot.Answer 20 (status upsert) (body upsert)
         | _ => Bot.Answer 30 (status served) (body served)
         end)
      (fun _ _ => true) in
  let run := Bot.start env (JObj user) Bot.idle in
  (status served = 400 \/ status served = 404) /\
  fst run = inr tt /\
  Bot.calls (snd run)
  = [Bot.GetTranslations (JStr "en"); Bot.GetTranslations (JStr "fr");
     Bot.PostFindOrCreate (JObj user)] /\
  (Bot.attempted (snd run) = [error_reply env 2 0] \/
   Bot.attempted (snd run) = [Bot.fallback_message; error_text env 2]) /\
  Bot.delivered (snd run) = [error_reply env 2 0].
Proof.
  intros user stored w upsert served env.
  apply (start_with_unsupported_preference env user 42 None 9 w
           (fun _ => None) stored); try reflexivity.
  - exists 20. split; reflexivity.
  - exists 30. split; reflexivity.
Defined.

(* ------------------------------------------------------------------ *)
(** ** The webhook address *)

(** X16. The address the bot registers with Telegram always starts with
    "http", a [WEBHOOK_URL] that does is taken as it stands (so the rule
    applied twice is the rule applied once), one that does not gets
    "https://" put in front, and the address ends in exactly the path the
    bot serves the callback on. *)
Theorem webhook_address WEBHOOK_URL TOKEN :
  String.prefix "http" (Bot.baseURL WEBHOOK_URL) = true /\
  Bot.baseURL (Bot.baseURL WEBHOOK_URL) = Bot.baseURL WEBHOOK_URL /\
  Bot.webhookURL WEBHOOK_URL TOKEN
  = (Bot.baseURL WEBHOOK_URL ++ Bot.webhookPath TOKEN)%string /\
  Bot.baseURL WEBHOOK_URL
  = (if String.prefix "http" WEBHOOK_URL then WEBHOOK_URL
     else String "h" (String "t" (String "t" (String "p" (String "s"
            (String ":" (String "/" (String "/" WEBHOOK_URL)))))))).
Proof.
  assert (H : String.prefix "http" (Bot.baseURL WEBHOOK_URL) = true).
  { unfold Bot.baseURL.
    destruct (String.prefix "http" WEBHOOK_URL) eqn:E; [exact E|].
    cbn. repeat rewrite Ascii.eqb_refl. reflexivity. }
  split; [exact H|]. split; [|split].
  - unfold Bot.baseURL at 1. now rewrite H.
  - reflexivity.
  - unfold Bot.baseURL. now destruct (String.prefix "http" WEBHOOK_URL).
Qed.

(* ------------------------------------------------------------------ *)
(** ** The schema *)

Lemma schema_run_error s now rel e rel' :
  Schema.run s now rel = (inl e, rel') -> rel' = rel.
Proof.
  destruct s; cbn [Schema.run]; try discriminate.
  destruct rel; [now intros [= _ <-] | discriminate].
Qed.

Lemma schema_query_outcome s now db :
  exists db',
    Schema.statements db' = s :: Schema.statements db /\
    ((exists e, Schema.query s now db = (inl e, db') /\
                Schema.relation db' = Schema.relation db) \/
     (exists r, Schema.query s now db = (inr r, db') /\
                Schema.run s now (Schema.relation db)
                = (inr r, Schema.relation db'))).
Proof.
  destruct (Schema.query s now db) as [res db'] eqn:Q. exists db'.
  revert Q. unfold Schema.query.
  destruct (Schema.pending db) as [|[e|] rest].
  - destruct (Schema.run s now (Schema.relation db)) as [[e0|r] rel'] eqn:E;
      intros [= <- <-]; (split; [reflexivity|]).
    + left. exists e0. split; [reflexivity|]. now apply schema_run_error in E.
    + right. exists r. split; reflexivity.
  - intros [= <- <-]. split; [reflexivity|]. left. exists e. now split.
  - destruct (Schema.run s now (Schema.relation db)) as [[e0|r] rel'] eqn:E;
      intros [= <- <-]; (split; [reflexivity|]).
    + left. exists e0. split; [reflexivity|]. now apply schema_run_error in E.
    + right. exists r. split; reflexivity.
Qed.

Lemma schema_query_quiet s now db :
  Schema.pending db = [] ->
  Schema.query s now db
  = (fst (Schema.run s now (Schema.relation db)),
     Schema.mk_database (snd (Schema.run s now (Schema.relation db)))
       (s :: Schema.statements db) []).
Proof.
  intros Hq. unfold Schema.query. rewrite Hq.
  destruct (Schema.run s now (Schema.relation db)); reflexivity.
Qed.

(** X17. Start-up never touches a table that is there: whatever the
    engine throws, the rows are afterwards what they were and no
    [CREATE TABLE] has been issued.  When the table is not there it is
    afterwards still missing or there and empty. *)
Theorem initializeDatabase_spares_the_table now db :
  match Schema.relation db with
  | Some t =>
      Schema.relation (Schema.initializeDatabase now db) = Some t /\
      exists issued,
        Schema.statements (Schema.initializeDatabase now db)
        = issued ++ Schema.statements db /\
        ~ In Schema.CreateUsersTable issued
  | None =>
      Schema.relation (Schema.initializeDatabase now db) = None \/
      Schema.relation (Schema.initializeDatabase now db) = Some []
  end.
Proof.
  unfold Schema.initializeDatabase, try_catch, Schema.initializeDatabase_try, bindM.
  destruct (schema_query_outcome Schema.SelectNow now db)
    as (db1 & Hs1 & [(e & -> & Hr1) | (r & -> & Hrun1)]).
  - cbn [snd]. rewrite Hr1, Hs1. destruct (Schema.relation db); auto.
    split; [reflexivity|]. exists [Schema.SelectNow]. split; [reflexivity|].
    intros [[=]|[]].
  - cbn [Schema.run] in Hrun1. injection Hrun1 as _ Hr1.
    destruct (schema_query_outcome Schema.UsersTableExists now db1)
      as (db2 & Hs2 & [(e & -> & Hr2) | (r2 & -> & Hrun2)]).
    + cbn [snd]. rewrite Hr2, <- Hr1, Hs2, Hs1. destruct (Schema.relation db); auto.
      split; [reflexivity|].
      exists [Schema.UsersTableExists; Schema.SelectNow]. split; [reflexivity|].
      intros [[=]|[[=]|[]]].
    + cbn [Schema.run] in Hrun2. injection Hrun2 as <- Hr2.
      cbn [Schema.exists_of]. rewrite <- Hr1.
      destruct (Schema.relation db) as [t|] eqn:Hrel; cbn [Schema.there negb].
      * unfold ret. cbn [snd]. rewrite <- Hr2, <- Hr1, Hs2, Hs1.
        split; [reflexivity|].
        exists [Schema.UsersTableExists; Schema.SelectNow]. split; [reflexivity|].
        intros [[=]|[[=]|[]]].
      * destruct (schema_query_outcome Schema.CreateUsersTable now db2)
          as (db3 & Hs3 & [(e & -> & Hr3) | (r3 & -> & Hrun3)]).
        -- cbn [snd]. rewrite Hr3, <- Hr2, <- Hr1. auto.
        -- rewrite <- Hr2, <- Hr1 in Hrun3.
           cbn [Schema.run] in Hrun3. injection Hrun3 as _ Hr3.
           destruct (schema_query_outcome Schema.UsersTableExists now db3)
             as (db4 & Hs4 & [(e & -> & Hr4) | (r4 & -> & Hrun4)]).
           ++ cbn [snd]. rewrite Hr4, <- Hr3. auto.
           ++ cbn [Schema.run] in Hrun4. injection Hrun4 as <- Hr4.
              rewrite <- Hr3. cbn [Schema.exists_of Schema.there negb].
              unfold ret. cbn [snd]. rewrite <- Hr4, <- Hr3. auto.
Qed.

(** X18. With the engine raising no fault, start-up over a database
    without the table issues the connection test, the check, the
    [CREATE TABLE] and the check again, and leaves the table there and
    empty; run again it issues only the test and the check and changes
    nothing. *)
Theorem initializeDatabase_creates_once now now' db :
  Schema.pending db = [] -> Schema.relation db = None ->
  let once := Schema.initializeDatabase now db in
  let twice := Schema.initializeDatabase now' once in
  Schema.relation once = Some [] /\
  Schema.statements once
  = [Schema.UsersTableExists; Schema.CreateUsersTable;
     Schema.UsersTableExists; Schema.SelectNow] ++ Schema.statements db /\
  Schema.relation twice = Schema.relation once /\
  Schema.statements twice
  = [Schema.UsersTableExists; Schema.SelectNow] ++ Schema.statements once.
Proof.
  intros Hq Hrel once twice.
  assert (Honce : once = Schema.mk_database (Some [])
            ([Schema.UsersTableExists; Schema.CreateUsersTable;
              Schema.UsersTableExists; Schema.SelectNow] ++ Schema.statements db)
            []).
  { subst once. unfold Schema.initializeDatabase, try_catch,
      Schema.initializeDatabase_try, bindM.
    rewrite (schema_query_quiet _ _ _ Hq). cbn [Schema.run fst snd].
    rewrite schema_query_quiet by reflexivity.
    cbn [Schema.run Schema.relation fst snd]. rewrite Hrel.
    cbn [Schema.there Schema.exists_of negb].
    rewrite schema_query_quiet by reflexivity.
    cbn [Schema.run Schema.relation fst snd].
    rewrite schema_query_quiet by reflexivity. reflexivity. }
  subst twice. rewrite Honce. repeat split.
Qed.

Lemma initializeDatabase_creates_once_witness :
  let db := Schema.mk_database None [] [] in
  let once := Schema.initializeDatabase 5 db in
  let twice := Schema.initializeDatabase 9 once in
  Schema.relation once = Some [] /\
  Schema.statements once
  = [Schema.UsersTableExists; Schema.CreateUsersTable;
     Schema.UsersTableExists; Schema.SelectNow] /\
  Schema.relation twice = Some [] /\
  Schema.statements twice
  = [Schema.UsersTableExists; Schema.SelectNow;
     Schema.UsersTableExists; Schema.CreateUsersTable;
     Schema.UsersTableExists; Schema.SelectNow].
Proof.
  exact (initializeDatabase_creates_once 5 9 (Schema.mk_database None [] [])
           eq_refl eq_refl).
Defined.

(** X19. The table endpoint called twice on a database without the table,
    the engine raising no fault: the first call creates the table and says
    so, the second finds it, says it already exists and issues nothing but
    the check. *)
Theorem create_table_twice now now' db :
  Schema.pending db = [] -> Schema.relation db = None ->
  let first := Schema.create_table now db in
  let second := Schema.create_table now' (snd first) in
  fst first
  = mk_response 200
      (JObj [("status", JStr "success");
             ("message", JStr "Users table created successfully");
             ("table_exists", JBool true)]) /\
  Schema.relation (snd first) = Some [] /\
  fst second
  = mk_response 200
      (JObj [("status", JStr "success");
             ("message", JStr "Users table already exists");
             ("table_exists", JBool true)]) /\
  Schema.relation (snd second) = Some [] /\
  Schema.statements (snd second)
  = Schema.UsersTableExists :: Schema.statements (snd first).
Proof.
  intros Hq Hrel first second.
  assert (Hfirst : first =
    (mk_response 200
       (JObj [("status", JStr "success");
              ("message", JStr "Users table created successfully");
              ("table_exists", JBool true)]),
     Schema.mk_database (Some [])
       ([Schema.UsersTableExists; Schema.CreateUsersTable;
         Schema.UsersTableExists] ++ Schema.statements db) [])).
  { subst first. unfold Schema.create_table, try_catch,
      Schema.create_table_try, bindM.
    rewrite (schema_query_quiet _ _ _ Hq). cbn [Schema.run fst snd].
    rewrite Hrel. cbn [Schema.there Schema.exists_of].
    rewrite schema_query_quiet by reflexivity.
    cbn [Schema.run Schema.relation fst snd].
    rewrite schema_query_quiet by reflexivity. reflexivity. }
  subst second. rewrite Hfirst. repeat split.
Qed.

Lemma create_table_twice_witness :
  let first := Schema.create_table 5 (Schema.mk_database None [] []) in
  let second := Schema.create_table 9 (snd first) in
  fst first
  = mk_response 200
      (JObj [("status", JStr "success");
             ("message", JStr "Users table created successfully");
             ("table_exists", JBool true)]) /\
  Schema.relation (snd first) = Some [] /\
  fst second
  = mk_response 200
      (JObj [("status", JStr "success");
             ("message", JStr "Users table already exists");
             ("table_exists", JBool true)]) /\
  Schema.relation (snd second) = Some [] /\
  Schema.statements (snd second)
  = Schema.UsersTableExists :: Schema.statements (snd first).
Proof.
  exact (create_table_twice 5 9 (Schema.mk_database None [] [])
           eq_refl eq_refl).
Defined.

(** X20. The table endpoint never touches a table that is there, whatever
    the engine throws.  And its 500 does not mean the table is missing:
    when the [CREATE TABLE] goes through and the check after it throws,
    the answer is 500 "Failed to create users table" with the error's
    message, and the table is there. *)
Theorem create_table_answer_and_table now db :
  (forall t, Schema.relation db = Some t ->
             Schema.relation (snd (Schema.create_table now db)) = Some t) /\
  (forall e rest,
     Schema.relation db = None ->
     Schema.pending db = None :: None :: Some e :: rest ->
     fst (Schema.create_table now db)
     = mk_response 500
         (JObj [("status", JStr "error");
                ("message", JStr "Failed to create users table");
                ("error", JStr (message e))]) /\
     Schema.relation (snd (Schema.create_table now db)) = Some []).
Proof.
  split.
  - intros t Hrel.
    unfold Schema.create_table, try_catch, Schema.create_table_try, bindM.
    destruct (schema_query_outcome Schema.UsersTableExists now db)
      as (db1 & _ & [(e & -> & Hr1) | (r & -> & Hrun1)]).
    + cbn [snd]. congruence.
    + rewrite Hrel in Hrun1. cbn [Schema.run Schema.there] in Hrun1.
      injection Hrun1 as <- Hr1. cbn [Schema.exists_of]. unfold ret.
      cbn [snd]. congruence.
  - intros e rest Hrel Hp. destruct db as [rel log pend].
    cbn [Schema.relation Schema.pending] in Hrel, Hp. subst rel pend.
    split; reflexivity.
Qed.

Lemma create_table_answer_and_table_witness :
  let lost := mk_error (Some "57P01") "terminating connection" in
  let db := Schema.mk_database None [] [None; None; Some lost] in
  status (fst (Schema.create_table 5 db)) = 500 /\
  Schema.relation (snd (Schema.create_table 5 db)) = Some [].
Proof.
  intros lost db.
  destruct (proj2 (create_table_answer_and_table 5 db) lost []
              eq_refl eq_refl) as [H1 H2].
  split; [now rewrite H1 | exact H2].
Defined.

Lemma findOrCreate_first_fault mode now body z w e rest :
  valid_payload body z = true -> faults w = Some e :: rest ->
  findOrCreate mode now body w
  = (findOrCreate_catch mode e,
     mk_world (users w) (SelectById (JNum z) :: issued w) rest).
Proof.
  intros Hv Hf.
  destruct (race_params body z Hv) as (s & Hid & Hz & Hfn & Hmiss & Hdes).
  unfold findOrCreate, try_catch, findOrCreate_try, bindM.
  rewrite Hdes. unfold ret at 1. rewrite Hmiss, Hid.
  unfold query. now rewrite Hf.
Qed.

(** X21. The health check does not see a missing table: on a database
    without [users], the engine raising no fault, [/health] answers 200
    "ok" while the user endpoint answers a valid payload 503 "Database
    table not found"; neither changes the database's table. *)
Theorem health_blind_to_missing_table mode now timestamp payload z db :
  valid_payload payload z = true ->
  Schema.pending db = [] -> Schema.relation db = None ->
  let checked := Schema.health now timestamp db in
  let served := Schema.user_request mode now payload db in
  status (fst checked) = 200 /\
  prop (body (fst checked)) "status" = JStr "ok" /\
  Schema.relation (snd checked) = None /\
  status (fst served) = 503 /\
  prop (body (fst served)) "error" = JStr "Database table not found" /\
  Schema.relation (snd served) = None.
Proof.
  intros Hv Hq Hrel checked served.
  destruct db as [rel log pend].
  cbn [Schema.relation Schema.pending] in Hq, Hrel. subst rel pend.
  assert (Hs : served = (findOrCreate_catch mode Schema.undefined_table,
                         Schema.mk_database None log [])).
  { subst served. unfold Schema.user_request.
    cbn [Schema.relation Schema.pending Schema.without_relation].
    rewrite (findOrCreate_first_fault mode now payload z
               (mk_world [] [] [Some Schema.undefined_table])
               Schema.undefined_table [] Hv eq_refl).
    reflexivity. }
  rewrite Hs. subst checked. repeat split.
Qed.

Lemma health_blind_to_missing_table_witness :
  let db := Schema.mk_database None [] [] in
  let payload := JObj [("id", JNum 42); ("first_name", JStr "Ana")] in
  let checked := Schema.health 5 "2025-01-01T00:00:00.000Z" db in
  let served := Schema.user_request (Some "production") 5 payload db in
  status (fst checked) = 200 /\
  prop (body (fst checked)) "status" = JStr "ok" /\
  Schema.relation (snd checked) = None /\
  status (fst served) = 503 /\
  prop (body (fst served)) "error" = JStr "Database table not found" /\
  Schema.relation (snd served) = None.
Proof.
  exact (health_blind_to_missing_table (Some "production") 5
           "2025-01-01T00:00:00.000Z"
           (JObj [("id", JNum 42); ("first_name", JStr "Ana")]) 42
           (Schema.mk_database None [] []) eq_refl eq_refl eq_refl).
Defined.

(** X22. Start-up and the table endpoint each repair a database without
    the table: after either, the engine raising no fault, the user
    endpoint answers a valid payload that the table stores as it is 201,
    and the table holds exactly the new row. *)
Theorem table_created_then_user_stored mode now later payload z db :
  storable_payload payload z = true ->
  Schema.pending db = [] -> Schema.relation db = None ->
  let row := new_row z (params_of payload) later in
  let after_startup :=
    Schema.user_request mode later payload (Schema.initializeDatabase now db) in
  let after_endpoint :=
    Schema.user_request mode later payload (snd (Schema.create_table now db)) in
  fst after_startup = mk_response 201 (row_json row) /\
  Schema.relation (snd after_startup) = Some [row] /\
  fst after_endpoint = mk_response 201 (row_json row) /\
  Schema.relation (snd after_endpoint) = Some [row].
Proof.
  intros Hs Hq Hrel row after_startup after_endpoint.
  pose proof (storable_valid _ _ Hs) as Hv.
  assert (Hserve : forall log,
    Schema.user_request mode later payload (Schema.mk_database (Some []) log [])
    = (mk_response 201 (row_json row),
       Schema.mk_database (Some [row]) log [])).
  { intros log. unfold Schema.user_request. cbn [Schema.relation Schema.pending].
    rewrite (findOrCreate_valid mode later payload z (mk_world [] [] []) Hv eq_refl).
    reflexivity. }
  assert (Hinit : exists log,
    Schema.initializeDatabase now db = Schema.mk_database (Some []) log []).
  { unfold Schema.initializeDatabase, try_catch,
      Schema.initializeDatabase_try, bindM.
    rewrite (schema_query_quiet _ _ _ Hq). cbn [Schema.run fst snd].
    rewrite schema_query_quiet by reflexivity.
    cbn [Schema.run Schema.relation fst snd]. rewrite Hrel.
    cbn [Schema.there Schema.exists_of negb].
    rewrite schema_query_quiet by reflexivity.
    cbn [Schema.run Schema.relation fst snd].
    rewrite schema_query_quiet by reflexivity. eexists. reflexivity. }
  assert (Hend : exists log,
    snd (Schema.create_table now db) = Schema.mk_database (Some []) log []).
  { unfold Schema.create_table, try_catch, Schema.create_table_try, bindM.
    rewrite (schema_query_quiet _ _ _ Hq). cbn [Schema.run fst snd].
    rewrite Hrel. cbn [Schema.there Schema.exists_of].
    rewrite schema_query_quiet by reflexivity.
    cbn [Schema.run Schema.relation fst snd].
    rewrite schema_query_quiet by reflexivity. eexists. reflexivity. }
  destruct Hinit as [log1 H1]. destruct Hend as [log2 H2].
  subst after_startup after_endpoint. rewrite H1, H2, !Hserve.
  repeat split.
Qed.

Lemma table_created_then_user_stored_witness :
  let db := Schema.mk_database None [] [] in
  let payload :=
    JObj [("id", JNum 42); ("is_bot", JBool false); ("first_name", JStr "Ana")] in
  let row := new_row 42 (params_of payload) 9 in
  let after_startup :=
    Schema.user_request None 9 payload (Schema.initializeDatabase 5 db) in
  let after_endpoint :=
    Schema.user_request None 9 payload (snd (Schema.create_table 5 db)) in
  fst after_startup = mk_response 201 (row_json row) /\
  Schema.relation (snd after_startup) = Some [row] /\
  fst after_endpoint = mk_response 201 (row_json row) /\
  Schema.relation (snd after_endpoint) = Some [row].
Proof.
  intros db payload.
  exact (table_created_then_user_stored None 5 9 payload 42 db
           eq_refl eq_refl eq_refl).
Defined.

(* ------------------------------------------------------------------ *)
(** ** The user endpoint: an id beyond the key's range *)

(** X23. An [id] outside the range of [BIGINT] passes the handler's
    validation, is refused by the engine at the [SELECT], and is answered
    500 "Internal server error", not 400; the table is untouched. *)
Theorem id_out_of_range_is_internal_error mode now fields z w :
  lookup "id" fields = JNum z ->
  z < BIGINT_MIN \/ BIGINT_MAX < z ->
  truthy (lookup "first_name" fields) = true ->
  faults w = [] ->
  let run := findOrCreate mode now (JObj fields) w in
  status (fst run) = 500 /\
  prop (body (fst run)) "error" = JStr "Internal server error" /\
  users (snd run) = users w /\
  issued (snd run) = SelectById (JNum z) :: issued w.
Proof.
  intros Hid Hz Hfn Hq run.
  assert (Hrun : run = (findOrCreate_catch mode numeric_value_out_of_range,
                        mk_world (users w) (SelectById (JNum z) :: issued w) [])).
  { subst run. unfold findOrCreate, try_catch, findOrCreate_try, bindM.
    unfold destructure, ret at 1.
    assert (Hm : missing_required (params_of (JObj fields)) = false).
    { unfold missing_required. cbn [params_of prop p_id p_first_name].
      rewrite Hid, Hfn. cbn [truthy negb orb].
      assert (z <> 0) by (unfold BIGINT_MIN, BIGINT_MAX in Hz; lia).
      apply Z.eqb_neq in H. now rewrite H. }
    rewrite Hm. cbn [params_of prop p_id]. rewrite Hid.
    rewrite (query_quiet _ _ _ Hq). cbn [execute]. unfold bind_id. cbn [bind].
    assert (Hr : (BIGINT_MIN <=? z) && (z <=? BIGINT_MAX) = false).
    { apply andb_false_iff. destruct Hz; [left; apply Z.leb_gt | right; apply Z.leb_gt];
        assumption. }
    rewrite Hr. reflexivity. }
  rewrite Hrun. repeat split.
Qed.

Lemma id_out_of_range_is_internal_error_witness :
  let run :=
    findOrCreate (Some "production") 5
      (JObj [("id", JNum (2 ^ 63)); ("first_name", JStr "Ana")])
      (mk_world [] [] []) in
  status (fst run) = 500 /\
  prop (body (fst run)) "error" = JStr "Internal server error" /\
  users (snd run) = [] /\
  issued (snd run) = [SelectById (JNum (2 ^ 63))].
Proof.
  apply (id_out_of_range_is_internal_error (Some "production") 5
           [("id", JNum (2 ^ 63)); ("first_name", JStr "Ana")] (2 ^ 63)
           (mk_world [] [] [])).
  - reflexivity.
  - right. unfold BIGINT_MAX. lia.
  - reflexivity.
  - reflexivity.
Defined.
